(** * react-shopping-cart: the product form's pricing and the cart example

    A shallow embedding of
    - [src/components/Product/Product.js]: [calculateAdditionalCost],
      [generateCartProduct], [handleQuantityValueChange], the price and the
      localization scope built by [render];
    - [examples/example1/app.js] (the example without redux):
      [generateProductKey] and the [addProduct] state updater.

    Conventions of the model.
    - A JavaScript number is an exact rational ([Qc], canonical fractions with
      Leibniz equality): [NaN], the infinities, the sign of zero and binary
      rounding are outside the model.  Integers subjected to [|0] are [Z],
      with the 32-bit wrap-around of the operator written out.
    - An object that the code only reads by key is a [gmap]; an object whose
      own-property order is observed ([Object.entries] feeding a [join]) is
      an association list in that order.  A property read sees own
      properties only: names inherited from [Object.prototype] are outside
      the model. *)

From Stdlib Require Import QArith Qcanon ZArith Lia Ascii.
From stdpp Require Import gmap strings list fin_maps numbers pretty.

Open Scope Qc_scope.

(** A decimal literal of the source, as a canonical rational. *)
Definition num (q : Q) : Qc := Q2Qc q.

(** ** Ordered objects *)

Module JSObject.

(** Own enumerable string-keyed properties in [Object.entries] order.
    Property names are taken not to be array indices, so that this order is
    the insertion order. *)
Definition object (V : Type) : Type := list (string * V).

Definition entries {V} (o : object V) : list (string * V) := o.

Definition keys {V} (o : object V) : list string := o.*1.


(** [{...o, [k]: v}]: an existing property keeps its place and takes the
    new value, a new property goes last. *)
Fixpoint set {V} (k : string) (v : V) (o : object V) : object V :=
  match o with
  | [] => [(k, v)]
  | (k', v') :: o' =>
      if decide (k = k') then (k', v) :: o' else (k', v') :: set k v o'
  end.

(** Objects have one property per name. *)
Definition wf {V} (o : object V) : Prop := NoDup (keys o).

End JSObject.

Import JSObject.

(** [Array.prototype.reduce] with an initial value. *)
Definition reduce {A B} (f : B → A → B) (init : B) (l : list A) : B :=
  foldl f init l.

(** ** Integer coercion and array indexing *)

(** [ToInt32]: the value modulo 2^32, read as a signed 32-bit integer. *)
Definition ToInt32 (z : Z) : Z := ((z + 2 ^ 31) `mod` 2 ^ 32 - 2 ^ 31)%Z.

(** [x|0] for [x] the result of a property read of integer type:
    [undefined|0] is [0]. *)
Definition bitor0 (x : option Z) : Z :=
  match x with
  | Some z => ToInt32 z
  | None => 0%Z
  end.

(** [a[i]] for an integer [i]: [undefined] ([None]) outside the array. *)
Definition array_get {A} (a : list A) (i : Z) : option A :=
  if decide (0 ≤ i)%Z then a !! Z.to_nat i else None.

(** ** Product properties *)

(** [number | string], the plain value of an option. *)
Inductive OptionValue : Type :=
  | VString (s : string)
  | VNumber (n : Qc).

(** [shape({ additionalCost, onSelect, value })].  [onSelect] is a callback
    for the input widget; none of the functions below reads it. *)
Record OptionShape : Type := {
  additionalCost : option (gmap string Qc);
  value : OptionValue;
}.

(** [ProductPropertyOptionType]: a bare string or number, or a shape. *)
Inductive ProductPropertyOption : Type :=
  | Scalar (v : OptionValue)
  | Shape (o : OptionShape).

(** [typeof selectedOption === 'object'
      && (selectedOption.additionalCost
          && selectedOption.additionalCost[currency])
      || 0]
    for [selectedOption] an array read ([None] is [undefined]).  The [&&]
    chain stops at the first falsy operand ([false], [undefined], [0]) and
    [|| 0] turns each of them into [0]. *)
Definition optionCost (selectedOption : option ProductPropertyOption)
    (currency : string) : Qc :=
  match selectedOption with
  | Some (Shape o) =>
      match additionalCost o with
      | Some costs =>
          match costs !! currency with
          | Some c => if decide (c = 0) then 0 else c
          | None => 0
          end
      | None => 0
      end
  | Some (Scalar _) => 0
  | None => 0
  end.

(** [propertyOptions[selectedPropertyIndexes[propertyName]|0]] *)
Definition selectedOptionOf (propertyOptions : list ProductPropertyOption)
    (selectedPropertyIndexes : gmap string Z) (propertyName : string)
    : option ProductPropertyOption :=
  array_get propertyOptions (bitor0 (selectedPropertyIndexes !! propertyName)).

Definition calculateAdditionalCost
    (properties : object (list ProductPropertyOption))
    (selectedPropertyIndexes : gmap string Z)
    (currency : string) : Qc :=
  reduce
    (λ sum '(propertyName, propertyOptions),
       let selectedOption :=
         selectedOptionOf propertyOptions selectedPropertyIndexes propertyName in
       sum + optionCost selectedOption currency)
    0
    (entries properties).

(** ** The cart line item built by the product form *)

(** The props of [Product] that [generateCartProduct] and [render] read. *)
Record ProductProps : Type := {
  p_properties : object (list ProductPropertyOption);
  p_propertiesToShowInCart : list string;
  p_prices : gmap string Qc;
  p_name : string;
  p_imagePath : string;
  p_path : string;
  p_id : string;
  p_currency : string;
}.

Record ProductInfo : Type := {
  pi_name : string;
  pi_prices : gmap string Qc;
  pi_path : string;
  pi_imagePath : string;
  pi_propertiesToShowInCart : list string;
}.

(** [ProductType].  A property value is [None] where the source stores
    [undefined]. *)
Record CartProduct : Type := {
  cp_id : string;
  cp_quantity : Qc;
  cp_properties : object (option OptionValue);
  cp_productInfo : ProductInfo;
}.

(** Modelled from the spec: [ProductPropertyInput.getOptionValue], whose
    source file is not part of the sources at hand.  The spec has it resolve
    a variant to its plain value, stripping the [additionalCost]/[onSelect]
    wrapper; on [undefined] (no variant at the index), about which the spec is
    silent, the model answers [undefined]. *)
Definition getOptionValue (opt : option ProductPropertyOption)
    : option OptionValue :=
  match opt with
  | Some (Scalar v) => Some v
  | Some (Shape o) => Some (value o)
  | None => None
  end.

Definition generateCartProduct (props : ProductProps) (quantity : Qc)
    (selectedPropertyIndexes : gmap string Z) : CartProduct :=
  {| cp_id := p_id props;
     cp_quantity := quantity;
     cp_properties :=
       reduce
         (λ obj '(propName, options),
            set propName
              (getOptionValue
                 (array_get options
                    (bitor0 (selectedPropertyIndexes !! propName))))
              obj)
         []
         (entries (p_properties props));
     cp_productInfo :=
       {| pi_name := p_name props;
          pi_prices :=
            reduce
              (λ acc '(currency, price),
                 <[currency :=
                     price + calculateAdditionalCost (p_properties props)
                               selectedPropertyIndexes currency]> acc)
              ∅
              (map_to_list (p_prices props));
          pi_path := p_path props;
          pi_imagePath := p_imagePath props;
          pi_propertiesToShowInCart := p_propertiesToShowInCart props |} |}.

(** ** Component state and the quantity input *)

(** [this.state]: [quantity] (initially [1]) next to the selected index of
    each property. *)
Record State : Type := {
  quantity : Qc;
  selectedPropertyIndexes : gmap string Z;
}.

Definition initialState : State :=
  {| quantity := 1; selectedPropertyIndexes := ∅ |}.

(** Modelled from the spec: [isNaturalNumber] of [helpers], whose source file
    is not part of the sources at hand.  The spec accepts a positive integer
    only: no fraction, no zero, no negative.  The argument is the result of
    a numeric coercion, [None] when that is not a finite number. *)
Definition isNaturalNumber (x : option Qc) : bool :=
  match x with
  | Some q => bool_decide (Qden q = 1%positive ∧ (0 < Qnum q)%Z)
  | None => false
  end.

Section QuantityInput.

(** Unary plus on the string of the input element: the number it denotes,
    [None] when the result is not a finite number. *)
Variable ToNumber : string → option Qc.

(** [handleQuantityValueChange({ target: { value } })]; [setState] merges
    [{ quantity }] into the state. *)
Definition handleQuantityValueChange (st : State) (value : string) : State :=
  let quantity := ToNumber value in
  if isNaturalNumber quantity then
    match quantity with
    | Some q =>
        {| quantity := q;
           selectedPropertyIndexes := selectedPropertyIndexes st |}
    | None => st
    end
  else st.

End QuantityInput.

(** ** The price and the localization scope of [render] *)

(** [prices[currency] + calculateAdditionalCost(properties,
    selectedPropertyIndexes, currency)]; the sum is not a number ([None])
    when [prices] has no entry for the currency. *)
Definition renderPrice (props : ProductProps) (st : State) : option Qc :=
  (λ base,
     base + calculateAdditionalCost (p_properties props)
              (selectedPropertyIndexes st) (p_currency props))
  <$> p_prices props !! p_currency props.

(** The data properties of [localizationScope]; its two accessor properties
    are code, [readScope] below. *)
Record LocalizationScope : Type := {
  ls_name : string;
  ls_quantity : Qc;
  ls_price : option Qc;
  ls_currency : string;
}.

Definition localizationScope (props : ProductProps) (st : State)
    : LocalizationScope :=
  {| ls_name := p_name props;
     ls_quantity := quantity st;
     ls_price := renderPrice props st;
     ls_currency := p_currency props |}.

(** What a run of the resolver does that is observed below: a property of
    the parameter object is read, [getLocalization] is entered. *)
Inductive event : Type :=
  | EGet (k : string)
  | ECall (id : string).

Section Localization.

(** [string | ReactElement], the result of [getLocalization]. *)
Variable node : Type.

Inductive ParamValue : Type :=
  | PUndefined
  | PString (s : string)
  | PNumber (n : option Qc)
  | PNode (r : node).

(** The body of a call [getLocalization(id, params)], as far as [params] is
    concerned: it reads properties of [params] one after the other, each
    answer deciding how it goes on, and returns. *)
Inductive Resolver : Type :=
  | Return (r : node)
  | Read (k : string) (cont : ParamValue → Resolver).

(** The [getLocalization] prop, supplied by the caller. *)
Variable getLocalization : string → Resolver.

(** A run yields its events and its result, [None] when the nesting of
    calls exceeds the fuel. *)
Definition Run (A : Type) : Type := (list event * option A)%type.

Fixpoint resolve (readParam : string → Run ParamValue) (r : Resolver)
    : Run node :=
  match r with
  | Return x => ([], Some x)
  | Read k cont =>
      let '(log, v) := readParam k in
      match v with
      | Some v =>
          let '(log', x) := resolve readParam (cont v) in (log ++ log', x)
      | None => (log, None)
      end
  end.

(** [getLocalization(id, params)] for [params] read through [readParam]. *)
Definition callWith (readParam : string → Run ParamValue) (id : string)
    : Run node :=
  let '(log, x) := resolve readParam (getLocalization id) in
  (ECall id :: log, x).

(** [localizationScope[k]].  The literal has four data properties and
    [get localizedCurrency() { return getLocalization(currency,
    localizationScope); }], [get localizedName() { return
    getLocalization(name, localizationScope); }]: reading one of the two runs
    the resolver against the same object. *)
Fixpoint readScope (fuel : nat) (scope : LocalizationScope) (k : string)
    : Run ParamValue :=
  let lazy (id : string) : Run ParamValue :=
    match fuel with
    | O => ([EGet k], None)
    | S fuel' =>
        let '(log, x) := callWith (readScope fuel' scope) id in
        (EGet k :: log, PNode <$> x)
    end in
  if decide (k = "name") then ([EGet k], Some (PString (ls_name scope)))
  else if decide (k = "quantity") then
    ([EGet k], Some (PNumber (Some (ls_quantity scope))))
  else if decide (k = "price") then
    ([EGet k], Some (PNumber (ls_price scope)))
  else if decide (k = "currency") then
    ([EGet k], Some (PString (ls_currency scope)))
  else if decide (k = "localizedCurrency") then lazy (ls_currency scope)
  else if decide (k = "localizedName") then lazy (ls_name scope)
  else ([EGet k], Some PUndefined).

(** [getLocalization(id, localizationScope)] *)
Definition callGetLocalization (fuel : nat) (scope : LocalizationScope)
    (id : string) : Run node :=
  callWith (readScope fuel scope) id.

(** The three texts [render] asks for itself. *)
Definition renderTexts (fuel : nat) (props : ProductProps) (st : State)
    : list (Run node) :=
  let scope := localizationScope props st in
  [callGetLocalization fuel scope "price";
   callGetLocalization fuel scope "quantityLabel";
   callGetLocalization fuel scope "addToCart"].

Definition isLazyParam (k : string) : bool :=
  bool_decide (k = "localizedCurrency" ∨ k = "localizedName").

Definition isCall (e : event) : bool :=
  match e with
  | ECall _ => true
  | EGet _ => false
  end.

Definition isLazyRead (e : event) : bool :=
  match e with
  | EGet k => isLazyParam k
  | ECall _ => false
  end.

(** How often [getLocalization] was entered, how often one of the two
    accessor properties was read. *)
Definition calls (log : list event) : nat := length (List.filter isCall log).

Definition lazyReads (log : list event) : nat :=
  length (List.filter isLazyRead log).

End Localization.

Arguments PUndefined {node}.
Arguments PString {node} s.
Arguments PNumber {node} n.
Arguments PNode {node} r.
Arguments Return {node} r.
Arguments Read {node} k cont.

(** ** The example application: product keys *)

Section ProductKey.

(** [Number::toString], applied by [join] to a numeric property value. *)
Variable NumberToString : Qc → string.

(** [Array.prototype.join]: the elements' strings with the separator
    between them; [undefined] counts as the empty string. *)
Definition join (sep : string) (l : list string) : string :=
  String.concat sep l.

Definition valueToString (v : option OptionValue) : string :=
  match v with
  | Some (VString s) => s
  | Some (VNumber n) => NumberToString n
  | None => ""
  end.

(** The string of an entry [[name, value]]: [Array.prototype.toString] joins
    with a comma. *)
Definition entryToString (e : string * option OptionValue) : string :=
  join "," [e.1; valueToString e.2].

(** [`${id}/${Object.entries(properties).join('_')}`] *)
Definition generateProductKey (id : string)
    (properties : object (option OptionValue)) : string :=
  id +:+ "/" +:+ join "_" (entryToString <$> entries properties).

End ProductKey.

(** Decimal digits of an integral number, as [Number::toString] gives them
    for integers below 10^21; used where an example needs numbers printed. *)
Definition integerToString (n : Qc) : string := pretty (Qnum n).

(** ** The example application: the [addProduct] state updater

    [addProduct] is written with object spread and rest, which create
    objects; whether the caller's objects survive is a question about the
    store, so objects live in a store here and are passed by reference. *)

Module Store.

Inductive val : Type :=
  | JUndefined
  | JNumber (n : Qc)
  | JString (s : string)
  | JRef (l : nat).

(** An object is its properties; the store grows by allocation and a
    reference is an index into it. *)
Abbreviation heap := (list (gmap string val)).

(** A completed object literal enters the store. *)
Definition alloc (h : heap) (o : gmap string val) : heap * nat :=
  (h ++ [o], length h).

(** [o.k], [undefined] when [o] has no such property. *)
Definition getField (o : gmap string val) (k : string) : val :=
  default JUndefined (o !! k).

(** [a + b] on numbers; operands of other types are outside the model. *)
Definition add (a b : val) : option val :=
  match a, b with
  | JNumber x, JNumber y => Some (JNumber (x + y))
  | _, _ => None
  end.

(** The parameter of the function passed to [setState],
    [{ products: { [key]: cartProduct = { quantity: 0 }, ...restOfProducts } }],
    bound to the previous state: [cartProduct] is the entry at [key], a new
    object [{ quantity: 0 }] if that is [undefined], and [restOfProducts] a
    new object with the other properties.  It returns the store and the two
    references. *)
Definition bindParams (key : string) (h : heap) (prevState : nat)
    : option (heap * (nat * nat)) :=
  st ← h !! prevState;
  match getField st "products" with
  | JRef products =>
      productsObj ← h !! products;
      '(h1, cartProduct) ←
        match getField productsObj key with
        | JUndefined => Some (alloc h {[ "quantity" := JNumber 0 ]})
        | JRef l => Some (h, l)
        | JNumber _ | JString _ => None
        end;
      let '(h2, restOfProducts) := alloc h1 (delete key productsObj) in
      Some (h2, (cartProduct, restOfProducts))
  | JUndefined | JNumber _ | JString _ => None
  end.

(** Its body,
    [{ products: { ...restOfProducts,
                   [key]: { ...product,
                            quantity: product.quantity
                                      + cartProduct.quantity } } }].
    It returns the store and the reference of this partial state. *)
Definition updaterBody (key : string) (product : nat) (h : heap)
    (cartProduct restOfProducts : nat) : option (heap * nat) :=
  productObj ← h !! product;
  cartProductObj ← h !! cartProduct;
  q ← add (getField productObj "quantity")
          (getField cartProductObj "quantity");
  let '(h1, item) := alloc h (<["quantity" := q]> productObj) in
  restObj ← h1 !! restOfProducts;
  let '(h2, newProducts) := alloc h1 (<[key := JRef item]> restObj) in
  Some (alloc h2 {[ "products" := JRef newProducts ]}).

(** The function passed to [setState], for the previous state at
    [prevState] and [product] an object of the store. *)
Definition addProductUpdater (key : string) (product : nat)
    (h : heap) (prevState : nat) : option (heap * nat) :=
  '(h1, (cartProduct, restOfProducts)) ← bindParams key h prevState;
  updaterBody key product h1 cartProduct restOfProducts.

(** React's [setState] with an updater: the partial state it returns is
    merged shallowly over the previous state into a new state object, which
    becomes [this.state]. *)
Definition setState (updater : heap → nat → option (heap * nat))
    (h : heap) (state : nat) : option (heap * nat) :=
  '(h1, partialState) ← updater h state;
  st ← h1 !! state;
  partialObj ← h1 !! partialState;
  Some (alloc h1 (partialObj ∪ st)).

(** [addProduct = (key, product, currency) => void this.setState(...)]:
    the store and [this.state] afterwards. *)
Definition addProduct (key : string) (product : nat) (currency : string)
    (h : heap) (state : nat) : option (heap * nat) :=
  setState (addProductUpdater key product) h state.

(** [state.products], the collection object. *)
Definition productsOf (h : heap) (state : nat) : option (gmap string val) :=
  st ← h !! state;
  match getField st "products" with
  | JRef products => h !! products
  | _ => None
  end.

(** [state.products[key]], the line item object. *)
Definition entryOf (h : heap) (state : nat) (key : string)
    : option (gmap string val) :=
  productsObj ← productsOf h state;
  match getField productsObj key with
  | JRef l => h !! l
  | _ => None
  end.

(** What [addProduct] expects: a state with a collection, a product with a
    numeric quantity, and at [key] nothing or a line item with a numeric
    quantity. *)
Definition wfInput (h : heap) (state : nat) (key : string) (product : nat)
    : Prop :=
  ∃ st products productsObj productObj qi,
    h !! state = Some st
    ∧ getField st "products" = JRef products
    ∧ h !! products = Some productsObj
    ∧ h !! product = Some productObj
    ∧ getField productObj "quantity" = JNumber qi
    ∧ (getField productsObj key = JUndefined
       ∨ ∃ l e qe, getField productsObj key = JRef l
                   ∧ h !! l = Some e
                   ∧ getField e "quantity" = JNumber qe).

End Store.

(** ** An instance of the numeric coercion for the examples *)

(** Unary plus on a string of decimal digits with an optional sign and an
    optional fraction; the empty string is [0].  Other strings are not
    numbers here (exponents, hexadecimal literals and surrounding blanks,
    which the language also reads, are left out). *)
Definition digitOf (a : Ascii.ascii) : option Z :=
  let n := Z.of_nat (Ascii.nat_of_ascii a) in
  if decide (48 ≤ n ≤ 57)%Z then Some (n - 48)%Z else None.

Fixpoint readDigits (s : string) (acc : Z) (scale : positive)
    : option (Z * positive) :=
  match s with
  | EmptyString => Some (acc, scale)
  | String a s' =>
      d ← digitOf a; readDigits s' (10 * acc + d)%Z (10 * scale)%positive
  end.

Fixpoint readDecimal (s : string) (acc : Z) : option Q :=
  match s with
  | EmptyString => Some (inject_Z acc)
  | String "."%char s' =>
      '(n, scale) ← readDigits s' acc 1%positive; Some (n # scale)
  | String a s' => d ← digitOf a; readDecimal s' (10 * acc + d)%Z
  end.

Definition ToNumberDecimal (s : string) : option Qc :=
  match s with
  | String "-"%char s' =>
      if decide (s' = "" ∨ s' = ".") then None
      else (λ q, Q2Qc (- q)) <$> readDecimal s' 0
  | String "+"%char s' =>
      if decide (s' = "" ∨ s' = ".") then None
      else Q2Qc <$> readDecimal s' 0
  | _ => if decide (s = ".") then None else Q2Qc <$> readDecimal s 0
  end.

(** ** The additional cost as the specification words it *)







(** The selected index of a group, after [|0], is a position of its list of
    options. *)
Definition inRange (propertyOptions : list ProductPropertyOption)
    (selectedPropertyIndexes : gmap string Z) (propertyName : string) : Prop :=
  (0 ≤ bitor0 (selectedPropertyIndexes !! propertyName)
     < Z.of_nat (length propertyOptions))%Z.

(** ** Example data *)

Definition yellow : ProductPropertyOption :=
  Shape {| additionalCost := Some {[ "USD" := num 3.5 ]};
           value := VString "yellow" |}.

Definition red : ProductPropertyOption := Scalar (VString "red").




(** Base price [{USD: 70}], one group [colour: ["red", {value: "yellow",
    additionalCost: {USD: 3.5}}]]. *)
Definition caseProps : ProductProps :=
  {| p_properties := [("colour", [red; yellow])];
     p_propertiesToShowInCart := ["colour"];
     p_prices := {[ "USD" := num 70 ]};
     p_name := "case";
     p_imagePath := "1-483x321.jpeg";
     p_path := "/shop/case/";
     p_id := "case";
     p_currency := "USD" |}.

(** A resolver none of whose runs reads one of the two accessor
    properties. *)
Fixpoint neverReadsLazy {node} (r : Resolver node) : Prop :=
  match r with
  | Return _ => True
  | Read k cont => isLazyParam k = false ∧ ∀ v, neverReadsLazy (cont v)
  end.

(** The text of a parameter, for the example below. *)
Definition paramText (v : ParamValue string) : string :=
  match v with
  | PNode r => r
  | PString s => s
  | PNumber (Some n) => integerToString n
  | PNumber None | PUndefined => ""
  end.

(** A [getLocalization] in the manner of the example application: the
    price line shows the localized currency, the currency codes and the
    other ids stand for fixed texts. *)
Definition exampleLocalization (id : string) : Resolver string :=
  if decide (id = "price") then
    Read "localizedCurrency" (λ c, Return ("Price: " +:+ paramText c))
  else if decide (id = "USD") then Return "$"
  else if decide (id = "quantityLabel") then Return "Quantity:"
  else Return id.

(** A property name made of decimal digits.  The names that
    [Object.entries] lists in ascending numeric order before all others,
    whatever the order of insertion, are among these; every other name is
    listed in the order of insertion. *)
Fixpoint allDigits (s : string) : bool :=
  match s with
  | EmptyString => true
  | String c s' =>
      match digitOf c with
      | Some _ => allDigits s'
      | None => false
      end
  end.

Definition integerLike (s : string) : bool :=
  match s with
  | EmptyString => false
  | String _ _ => allDigits s
  end.

(** The name of a property as [generateProductKey] needs it to tell entries
    apart: no comma in it. *)
Fixpoint commaFree (s : string) : bool :=
  match s with
  | EmptyString => true
  | String c s' => negb (Ascii.eqb c ",") && commaFree s'
  end.

Import Store.

(** A store for the examples: an empty collection, the state that holds
    it, and two line items for the same product, of quantities 2 and 3. *)
Definition exampleItem (q : Qc) : gmap string val :=
  {[ "id" := JString "m"; "quantity" := JNumber q ]}.

Definition exampleStore : heap :=
  [ ∅; {[ "products" := JRef 0 ]}; exampleItem (num 2); exampleItem (num 3) ].

(** The example store after the first item was added at key ["m/"], with
    its state. *)
Definition exampleStoreAdded : heap * nat :=
  default (exampleStore, 1%nat) (addProduct "m/" 2 "GBP" exampleStore 1).

(** ** The rest of the product form *)

(** [hanglePropertyValueChange({ value })] is [setState(value)]: the object
    is merged into [this.state], which holds the quantity under the name
    [quantity] next to the selected indexes.  In the view
    [{ quantity, ...selectedPropertyIndexes } = state] an entry of that name
    is the quantity and is no selected index. *)
Definition hanglePropertyValueChange (st : State) (value : gmap string Z)
    : State :=
  {| quantity :=
       match value !! "quantity" with
       | Some i => Qc_of_Z i
       | None => quantity st
       end;
     selectedPropertyIndexes :=
       delete "quantity" (value ∪ selectedPropertyIndexes st) |}.

(** What the user does to the form between two submissions. *)
Inductive FormEvent : Type :=
  | QuantityInput (value : string)
  | PropertySelect (value : gmap string Z).

Definition handleEvent (ToNumber : string → option Qc) (st : State)
    (ev : FormEvent) : State :=
  match ev with
  | QuantityInput value => handleQuantityValueChange ToNumber st value
  | PropertySelect value => hanglePropertyValueChange st value
  end.

(** The arguments of a call [onAddProduct(key, product, currency)]. *)
Record AddProductCall : Type := {
  call_key : string;
  call_product : CartProduct;
  call_currency : string;
}.

(** The timers of the window that the component has set: those still to
    fire, and the handle the next [setTimeout] returns. *)
Record Timers : Type := {
  pending : gset nat;
  nextTimer : nat;
}.

Definition setTimeout (env : Timers) : nat * Timers :=
  (nextTimer env,
   {| pending := {[ nextTimer env ]} ∪ pending env;
      nextTimer := S (nextTimer env) |}).

Definition clearTimeout (t : nat) (env : Timers) : Timers :=
  {| pending := pending env ∖ {[ t ]}; nextTimer := nextTimer env |}.

(** The component instance: [this.state] and [this.scrollTimeout], [None]
    for [undefined]. *)
Record Instance : Type := {
  i_state : State;
  scrollTimeout : option nat;
}.

(** [if (typeof this.scrollTimeout !== 'undefined') {
       clearTimeout(this.scrollTimeout); delete this.scrollTimeout; }] *)
Definition clearScrollTimeout (c : Instance) (env : Timers)
    : Instance * Timers :=
  match scrollTimeout c with
  | Some t =>
      ({| i_state := i_state c; scrollTimeout := None |}, clearTimeout t env)
  | None => (c, env)
  end.

Definition componentWillUnmount (c : Instance) (env : Timers)
    : Instance * Timers :=
  clearScrollTimeout c env.

Section Submit.

(** The [generateProductKey] prop, supplied by the caller. *)
Variable generateKey : string → object (option OptionValue) → string.

(** [addProductFormSubmit(event)]: when the quantity is truthy, the pending
    scroll is cancelled, a new one is scheduled, and [onAddProduct] is called
    with the key, the line item and the currency.  The scroll itself and
    [event.preventDefault()] are not modelled. *)
Definition addProductFormSubmit (props : ProductProps) (c : Instance)
    (env : Timers) : (Instance * Timers) * option AddProductCall :=
  if decide (quantity (i_state c) = 0) then ((c, env), None)
  else
    let '(c1, env1) := clearScrollTimeout c env in
    let '(t, env2) := setTimeout env1 in
    let product :=
      generateCartProduct props (quantity (i_state c))
        (selectedPropertyIndexes (i_state c)) in
    (({| i_state := i_state c1; scrollTimeout := Some t |}, env2),
     Some {| call_key := generateKey (p_id props) (cp_properties product);
             call_product := product;
             call_currency := p_currency props |}).

(** What happens to a mounted component: the form is submitted, a pending
    timer fires (it runs once), an input changes the state. *)
Inductive step (ToNumber : string → option Qc) (props : ProductProps)
    : Instance * Timers → Instance * Timers → Prop :=
  | step_submit c env :
      step ToNumber props (c, env) (addProductFormSubmit props c env).1
  | step_fire c env t :
      t ∈ pending env →
      step ToNumber props (c, env) (c, clearTimeout t env)
  | step_input c env ev :
      step ToNumber props (c, env)
        ({| i_state := handleEvent ToNumber (i_state c) ev;
            scrollTimeout := scrollTimeout c |}, env).

End Submit.

(** A component as mounted: the initial state, no scroll scheduled. *)
Definition mounted : Instance * Timers :=
  ({| i_state := initialState; scrollTimeout := None |},
   {| pending := ∅; nextTimer := 1 |}).

(** The timers the component knows of: the one in [this.scrollTimeout]. *)
Definition knownTimers (c : Instance) : gset nat :=
  match scrollTimeout c with
  | Some t => {[ t ]}
  | None => ∅
  end.

(** ** The cart *)

(** The props of a [CartProduct] element that depend on the product. *)
Record CartRow : Type := {
  row_key : string;
  row_quantity : Qc;
  row_properties : object (option OptionValue);
  row_price : option Qc;
  row_currency : string;
  row_path : string;
  row_name : string;
  row_imagePath : string;
  row_propertiesToShow : list string;
}.

(** The elements [Cart]'s [render] makes of the products:
    [Object.entries(products).map(([productKey, { productInfo: {...},
    quantity, properties }]) => <CartProduct ... price={prices[currency]}
    ... />)]. *)
Definition Cart_render (products : object CartProduct) (currency : string)
    : list CartRow :=
  (λ '(productKey, product),
     {| row_key := productKey;
        row_quantity := cp_quantity product;
        row_properties := cp_properties product;
        row_price := pi_prices (cp_productInfo product) !! currency;
        row_currency := currency;
        row_path := pi_path (cp_productInfo product);
        row_name := pi_name (cp_productInfo product);
        row_imagePath := pi_imagePath (cp_productInfo product);
        row_propertiesToShow :=
          pi_propertiesToShowInCart (cp_productInfo product) |})
  <$> entries products.

(** ** Sequences of additions *)

(** [addProduct(key, product, currency)] for each of the products in turn. *)
Fixpoint addProducts (key : string) (currency : string) (products : list nat)
    (h : heap) (state : nat) : option (heap * nat) :=
  match products with
  | [] => Some (h, state)
  | product :: rest =>
      '(h', state') ← addProduct key product currency h state;
      addProducts key currency rest h' state'
  end.

(** A string without the character. *)
Fixpoint charFree (c : Ascii.ascii) (s : string) : bool :=
  match s with
  | EmptyString => true
  | String x s' => negb (Ascii.eqb x c) && charFree c s'
  end.

(** The props with another currency. *)
Definition withCurrency (props : ProductProps) (currency : string)
    : ProductProps :=
  {| p_properties := p_properties props;
     p_propertiesToShowInCart := p_propertiesToShowInCart props;
     p_prices := p_prices props;
     p_name := p_name props;
     p_imagePath := p_imagePath props;
     p_path := p_path props;
     p_id := p_id props;
     p_currency := currency |}.

(** A [getLocalization] whose text for the name ["case"] is
    ['{localizedName}']. *)
Definition selfReferringLocalization (id : string) : Resolver string :=
  if decide (id = "case") then Read "localizedName" (λ v, Return (paramText v))
  else Return id.

(** * Properties *)

(** ** The coercions on examples *)

Example ToInt32_examples :
  ToInt32 1 = 1%Z ∧ ToInt32 (-1) = (-1)%Z ∧ ToInt32 4294967296 = 0%Z
  ∧ ToInt32 2147483648 = (-2147483648)%Z.
Proof. by vm_compute. Qed.

Example bitor0_undefined : bitor0 None = 0%Z.
Proof. reflexivity. Qed.

Example array_get_examples :
  array_get [red; yellow] 1 = Some yellow
  ∧ array_get [red; yellow] 2 = None
  ∧ array_get [red; yellow] (-1) = None.
Proof. by vm_compute. Qed.

Example ToNumberDecimal_examples :
  ToNumberDecimal "" = Some 0 ∧ ToNumberDecimal "abc" = None
  ∧ ToNumberDecimal "-" = None ∧ ToNumberDecimal "1.2.3" = None.
Proof. by vm_compute. Qed.

Example generateProductKey_red :
  generateProductKey integerToString "ipad-case"
    [("colour", Some (VString "red"))]
  = "ipad-case/colour,red".
Proof. by vm_compute. Qed.

(** Closed equations between rationals: compare the fractions. *)
Ltac qc_compute := apply Qc_is_canon; vm_compute; reflexivity.

Ltac qc_differ :=
  let H := fresh in
  intros H; apply (f_equal this) in H; vm_compute in H; discriminate H.

(** ** [calculateAdditionalCost] *)


(** The accumulator of the [reduce] can be taken out of the fold. *)
Lemma reduce_cost_acc properties sel currency (acc : Qc) :
  reduce
    (λ sum '(propertyName, propertyOptions),
       sum + optionCost (selectedOptionOf propertyOptions sel propertyName)
               currency)
    acc properties
  = acc + calculateAdditionalCost properties sel currency.
Proof.
  unfold calculateAdditionalCost, entries, reduce.
  revert acc. induction properties as [|[g opts] rest IH]; intros acc; simpl.
  - ring.
  - rewrite IH, (IH (0 + _)). ring.
Qed.

Lemma calculateAdditionalCost_nil sel currency :
  calculateAdditionalCost [] sel currency = 0.
Proof. reflexivity. Qed.

Lemma calculateAdditionalCost_cons g opts rest sel currency :
  calculateAdditionalCost ((g, opts) :: rest) sel currency
  = optionCost (selectedOptionOf opts sel g) currency
    + calculateAdditionalCost rest sel currency.
Proof.
  unfold calculateAdditionalCost at 1, entries, reduce. simpl.
  etrans; [apply reduce_cost_acc|]. ring.
Qed.

Lemma calculateAdditionalCost_app l1 l2 sel currency :
  calculateAdditionalCost (l1 ++ l2) sel currency
  = calculateAdditionalCost l1 sel currency
    + calculateAdditionalCost l2 sel currency.
Proof.
  induction l1 as [|[g opts] l1 IH]; simpl.
  - rewrite calculateAdditionalCost_nil. ring.
  - rewrite !calculateAdditionalCost_cons, IH. ring.
Qed.

Lemma selectedOptionOf_out_of_range opts sel g :
  ¬ inRange opts sel g → selectedOptionOf opts sel g = None.
Proof.
  unfold inRange, selectedOptionOf, array_get. intros Hout.
  case_decide as Hpos; [|done].
  apply lookup_ge_None. lia.
Qed.

Lemma selectedOptionOf_in_range opts sel g :
  inRange opts sel g → is_Some (selectedOptionOf opts sel g).
Proof.
  unfold inRange, selectedOptionOf, array_get. intros [Hpos Hlt].
  rewrite decide_True by done.
  apply lookup_lt_is_Some. lia.
Qed.

Lemma ToInt32_small z :
  (- 2 ^ 31 ≤ z < 2 ^ 31)%Z → ToInt32 z = z.
Proof.
  intros Hz. unfold ToInt32.
  rewrite Z.mod_small by lia. lia.
Qed.

Lemma foldl_ext_in {A B} (f g : B → A → B) (l : list A) (b : B) :
  (∀ acc x, x ∈ l → f acc x = g acc x) → foldl f b l = foldl g b l.
Proof.
  revert b. induction l as [|x l IH]; intros b Hfg; simpl; [done|].
  rewrite Hfg by apply list_elem_of_here.
  apply IH. intros acc y Hy. apply Hfg. by apply list_elem_of_further.
Qed.




(** C10, as the code has it. When the selected index of a group, after the
    32-bit coercion of [|0], is negative or at least the length of the
    group's option list, the lookup yields [undefined] and the group adds
    exactly [0]: the sum is that of the other groups, whatever the option at
    index 0 carries.  Every integer from -2^31 to 2^31 - 1 that is negative
    or at least the length is such an index. *)
Theorem calculateAdditionalCost_out_of_range l1 g opts l2 sel currency i :
  sel !! g = Some i →
  (¬ (0 ≤ ToInt32 i < Z.of_nat (length opts))%Z
   ∨ ((- 2 ^ 31 ≤ i < 2 ^ 31)%Z ∧ (i < 0 ∨ Z.of_nat (length opts) ≤ i)%Z)) →
  selectedOptionOf opts sel g = None
  ∧ optionCost (selectedOptionOf opts sel g) currency = 0
  ∧ calculateAdditionalCost (l1 ++ (g, opts) :: l2) sel currency
    = calculateAdditionalCost (l1 ++ l2) sel currency.
Proof.
  intros Hi Hout.
  assert (¬ (0 ≤ ToInt32 i < Z.of_nat (length opts))%Z) as Hout'.
  { destruct Hout as [?|[Hsmall Hi']]; [done|].
    rewrite ToInt32_small by done. lia. }
  assert (selectedOptionOf opts sel g = None) as Hsel.
  { apply selectedOptionOf_out_of_range. unfold inRange. by rewrite Hi. }
  rewrite !calculateAdditionalCost_app, calculateAdditionalCost_cons, Hsel.
  split; [done|]. split; [done|]. simpl. ring.
Qed.

Lemma calculateAdditionalCost_out_of_range_witness :
  calculateAdditionalCost [("colour", [yellow; red])] {[ "colour" := 5%Z ]}
    "USD"
  = calculateAdditionalCost [] {[ "colour" := 5%Z ]} "USD".
Proof.
  apply (calculateAdditionalCost_out_of_range
           [] "colour" [yellow; red] [] {[ "colour" := 5%Z ]} "USD" 5).
  - reflexivity.
  - right. simpl. lia.
Defined.

(** C10 fails as stated: [4294967296] is an integer and at least the length
    of the list, [4294967296|0] is [0], and the group adds the cost of the
    option at index 0. *)
Lemma calculateAdditionalCost_wraps :
  (Z.of_nat (length [yellow; red]) ≤ 4294967296)%Z
  ∧ calculateAdditionalCost [("colour", [yellow; red])]
      {[ "colour" := 4294967296%Z ]} "USD" = num 3.5
  ∧ num 3.5 ≠ 0.
Proof.
  split; [simpl; lia|]. split; [qc_compute|qc_differ].
Qed.

(** C1, as the code has it. When the selected index of a group, after the
    32-bit coercion of [|0], is outside the group's option list, the result
    is that for index 0 provided the option at index 0 adds nothing for the
    currency (it is a bare scalar, has no [additionalCost] for the currency,
    or the list is empty). *)
Theorem calculateAdditionalCost_index_zero_when_free
    properties sel currency g i :
  (∀ opts, (g, opts) ∈ properties →
     ¬ (0 ≤ ToInt32 i < Z.of_nat (length opts))%Z
     ∧ optionCost (array_get opts 0) currency = 0) →
  calculateAdditionalCost properties (<[g := i]> sel) currency
  = calculateAdditionalCost properties (<[g := 0%Z]> sel) currency.
Proof.
  induction properties as [|[g' opts] rest IH]; intros Hg; [done|].
  rewrite !calculateAdditionalCost_cons, IH.
  - f_equal. destruct (decide (g' = g)) as [->|Hne].
    + destruct (Hg opts) as [Hout Hzero]; [apply list_elem_of_here|].
      rewrite selectedOptionOf_out_of_range.
      * unfold selectedOptionOf. rewrite lookup_insert_eq.
        change (bitor0 (Some 0%Z)) with 0%Z. by rewrite Hzero.
      * unfold inRange. by rewrite lookup_insert_eq.
    + unfold selectedOptionOf. by rewrite !lookup_insert_ne.
  - intros opts' Hin. apply Hg. by apply list_elem_of_further.
Qed.

Lemma calculateAdditionalCost_index_zero_when_free_witness :
  calculateAdditionalCost [("colour", [red; yellow])]
    (<["colour" := 5%Z]> ∅) "USD"
  = calculateAdditionalCost [("colour", [red; yellow])]
      (<["colour" := 0%Z]> ∅) "USD".
Proof.
  apply (calculateAdditionalCost_index_zero_when_free
           [("colour", [red; yellow])] ∅ "USD" "colour" 5).
  intros opts Hin.
  apply list_elem_of_singleton in Hin. injection Hin as ->.
  split; [|reflexivity].
  intros [_ Hlt]. vm_compute in Hlt. discriminate Hlt.
Defined.

(** C1 fails as stated: with a costly option at index 0, index 5 of a list
    of two options gives [0] where index 0 gives [3.5]; and index 2^32 + 1,
    also outside the list, selects the option at index 1. *)
Lemma calculateAdditionalCost_no_fallback :
  calculateAdditionalCost [("colour", [yellow; red])] {[ "colour" := 5%Z ]}
    "USD"
  ≠ calculateAdditionalCost [("colour", [yellow; red])]
      {[ "colour" := 0%Z ]} "USD"
  ∧ calculateAdditionalCost [("colour", [red; yellow])]
      {[ "colour" := 4294967297%Z ]} "USD"
    ≠ calculateAdditionalCost [("colour", [red; yellow])]
        {[ "colour" := 0%Z ]} "USD".
Proof. split; qc_differ. Qed.

(** ** The displayed price *)

(** C7. The price [render] displays is the base price of the currency plus
    the additional cost, the exact sum; for base price [{USD: 70}], the group
    [colour: ["red", {value: "yellow", additionalCost: {USD: 3.5}}]],
    selected index 1 and currency USD it is [73.5]. *)
Theorem renderPrice_sum props st base :
  p_prices props !! p_currency props = Some base →
  renderPrice props st
  = Some (base + calculateAdditionalCost (p_properties props)
                   (selectedPropertyIndexes st) (p_currency props))
  ∧ renderPrice caseProps
      {| quantity := 1; selectedPropertyIndexes := {[ "colour" := 1%Z ]} |}
    = Some (num 73.5).
Proof.
  intros Hbase. split.
  - unfold renderPrice. by rewrite Hbase.
  - unfold renderPrice. simpl. rewrite lookup_singleton_eq. simpl.
    f_equal. qc_compute.
Qed.

Lemma renderPrice_sum_witness :
  renderPrice caseProps initialState
  = Some (num 70 + calculateAdditionalCost (p_properties caseProps)
                     (selectedPropertyIndexes initialState) "USD").
Proof.
  apply (renderPrice_sum caseProps initialState (num 70)).
  reflexivity.
Defined.

(** ** [generateCartProduct] *)

Lemma keys_set_fresh {V} k (v : V) (o : object V) :
  k ∉ keys o → set k v o = o ++ [(k, v)].
Proof.
  unfold keys. induction o as [|[k' v'] o IH]; simpl; intros Hk; [done|].
  apply not_elem_of_cons in Hk as [Hne Hk].
  rewrite decide_False by done. by rewrite IH.
Qed.

(** Over an object, the [reduce] that copies each property with a new value
    is a map over the entries. *)
Lemma reduce_set_map {A V} (f : string → A → V) (l : object A)
    (acc : object V) :
  NoDup (keys acc ++ keys l) →
  reduce (λ obj '(k, a), set k (f k a) obj) acc l
  = acc ++ ((λ e, (e.1, f e.1 e.2)) <$> l).
Proof.
  unfold reduce, keys. revert acc.
  induction l as [|[k a] l IH]; intros acc Hnd; simpl.
  - by rewrite app_nil_r.
  - rewrite keys_set_fresh.
    + rewrite IH.
      * by rewrite <- app_assoc.
      * rewrite fmap_app. simpl. by rewrite <- app_assoc.
    + apply NoDup_app in Hnd as (_ & Hdisj & _).
      intros Hin. apply (Hdisj _ Hin). simpl. apply list_elem_of_here.
Qed.


(** Folding insertions over the entries of a map. *)
Lemma reduce_insert_lookup {A V} (f : string → A → V)
    (l : list (string * A)) (acc : gmap string V) k :
  NoDup l.*1 →
  reduce (λ acc '(c, a), <[c := f c a]> acc) acc l !! k
  = match (list_to_map l : gmap string A) !! k with
    | Some a => Some (f k a)
    | None => acc !! k
    end.
Proof.
  unfold reduce. revert acc.
  induction l as [|[c a] l IH]; intros acc Hnd; simpl; [done|].
  apply NoDup_cons in Hnd as [Hc Hnd].
  rewrite IH by done.
  destruct (decide (c = k)) as [->|Hne].
  - rewrite lookup_insert_eq.
    rewrite (not_elem_of_list_to_map_1 _ _ Hc).
    by rewrite lookup_insert_eq.
  - by rewrite !lookup_insert_ne.
Qed.



(** ** The quantity input *)

(** [isNaturalNumber] holds of the positive integers and of nothing else. *)
Lemma isNaturalNumber_spec x :
  isNaturalNumber x = true ↔ ∃ n : Z, (0 < n)%Z ∧ x = Some (Qc_of_Z n).
Proof.
  unfold isNaturalNumber. destruct x as [q|].
  - rewrite bool_decide_eq_true. split.
    + intros [Hden Hnum]. exists (Qnum q). split; [done|]. f_equal.
      apply Qc_is_canon. simpl. unfold Qeq. simpl. rewrite Hden. lia.
    + intros (n & Hn & [= ->]). simpl. done.
  - split; [done|]. by intros (n & _ & ?).
Qed.

(** C6. Whatever the input string, [handleQuantityValueChange] returns a
    state: when the string coerces to a positive integer, the state with
    that quantity and the same selected indexes; in every other case
    (fraction, zero, negative, not a number) the state it was given. *)
Theorem handleQuantityValueChange_positive_integer
    (ToNumber : string → option Qc) (st : State) (value : string) :
  (∀ n : Z,
     (0 < n)%Z → ToNumber value = Some (Qc_of_Z n) →
     handleQuantityValueChange ToNumber st value
     = {| quantity := Qc_of_Z n;
          selectedPropertyIndexes := selectedPropertyIndexes st |})
  ∧ ((∀ n : Z, (0 < n)%Z → ToNumber value ≠ Some (Qc_of_Z n)) →
     handleQuantityValueChange ToNumber st value = st).
Proof.
  unfold handleQuantityValueChange. split.
  - intros n Hn Hvalue.
    assert (isNaturalNumber (ToNumber value) = true) as ->.
    { apply isNaturalNumber_spec. eauto. }
    by rewrite Hvalue.
  - intros Hnot.
    destruct (isNaturalNumber (ToNumber value)) eqn:Hnat; [|done].
    apply isNaturalNumber_spec in Hnat as (n & Hn & Hvalue).
    by destruct (Hnot n Hn).
Qed.

Lemma handleQuantityValueChange_positive_integer_witness :
  handleQuantityValueChange ToNumberDecimal initialState "3"
  = {| quantity := Qc_of_Z 3; selectedPropertyIndexes := ∅ |}
  ∧ handleQuantityValueChange ToNumberDecimal initialState "1.5"
    = initialState
  ∧ handleQuantityValueChange ToNumberDecimal initialState "-2"
    = initialState
  ∧ handleQuantityValueChange ToNumberDecimal initialState "abc"
    = initialState.
Proof.
  split; [|split; [|split]].
  - apply (proj1 (handleQuantityValueChange_positive_integer
                    ToNumberDecimal initialState "3") 3%Z); [done|].
    change (ToNumberDecimal "3") with (Some (Q2Qc (inject_Z 3))).
    f_equal. apply Qc_is_canon. vm_compute. reflexivity.
  - apply (proj2 (handleQuantityValueChange_positive_integer
                    ToNumberDecimal initialState "1.5")).
    intros n Hn Heq. injection Heq as Hnum Hden. discriminate Hden.
  - apply (proj2 (handleQuantityValueChange_positive_integer
                    ToNumberDecimal initialState "-2")).
    intros n Hn Heq. injection Heq as Hnum. subst n.
    vm_compute in Hn. discriminate Hn.
  - apply (proj2 (handleQuantityValueChange_positive_integer
                    ToNumberDecimal initialState "abc")).
    intros n Hn Heq. discriminate Heq.
Defined.

(** ** [generateProductKey] *)

Lemma append_assoc (a b c : string) : (a +:+ b) +:+ c = a +:+ (b +:+ c).
Proof.
  induction a as [|x a IH]; [done|].
  change (String x ((a +:+ b) +:+ c) = String x (a +:+ (b +:+ c))).
  by rewrite IH.
Qed.

Lemma comma_free_prefix a b x y :
  commaFree a = true → commaFree b = true →
  a +:+ "," +:+ x = b +:+ "," +:+ y → a = b.
Proof.
  revert b. induction a as [|c a IH]; intros [|c' b] Ha Hb Heq; simpl in *.
  - done.
  - injection Heq as <- _. done.
  - injection Heq as -> _. done.
  - injection Heq as -> Heq.
    apply andb_true_iff in Ha as [_ Ha]. apply andb_true_iff in Hb as [_ Hb].
    f_equal. by apply IH.
Qed.

(** C2, as the code has it. [generateProductKey] joins the entries in the
    order in which [Object.entries] lists them and does not sort them.  For
    names that are not made of digits this is the order of insertion: for two
    entries with such names, different and free of commas, the object with
    one order of insertion and the object with the other get different keys;
    [generateProductKey("m", {a:1,b:2})] is ["m/a,1_b,2"] and
    [generateProductKey("m", {b:2,a:1})] is ["m/b,2_a,1"]. *)
Theorem generateProductKey_order_sensitive
    (NumberToString : Qc → string) id a b va vb :
  integerLike a = false → integerLike b = false →
  a ≠ b → commaFree a = true → commaFree b = true →
  generateProductKey NumberToString id [(a, va); (b, vb)]
  ≠ generateProductKey NumberToString id [(b, vb); (a, va)]
  ∧ generateProductKey integerToString "m"
      [("a", Some (VNumber (num 1))); ("b", Some (VNumber (num 2)))]
    = "m/a,1_b,2"
  ∧ generateProductKey integerToString "m"
      [("b", Some (VNumber (num 2))); ("a", Some (VNumber (num 1)))]
    = "m/b,2_a,1".
Proof.
  intros _ _ Hne Ha Hb. split; [|by vm_compute].
  unfold generateProductKey, entries, join, entryToString. simpl.
  intros Heq. apply Hne.
  apply (inj (String.app id)) in Heq. injection Heq as Heq.
  cbn in Heq. rewrite !append_assoc in Heq.
  by apply (comma_free_prefix a b _ _ Ha Hb Heq).
Qed.

Lemma generateProductKey_order_sensitive_witness :
  generateProductKey integerToString "ipad-case"
    [("colour", Some (VString "red")); ("size", Some (VNumber (num 10)))]
  ≠ generateProductKey integerToString "ipad-case"
      [("size", Some (VNumber (num 10))); ("colour", Some (VString "red"))].
Proof.
  apply (generateProductKey_order_sensitive integerToString "ipad-case"
           "colour" "size" (Some (VString "red"))
           (Some (VNumber (num 10)))).
  - reflexivity.
  - reflexivity.
  - discriminate.
  - reflexivity.
  - reflexivity.
Defined.

(** C2 fails as stated: the two orders of insertion of [{a:1, b:2}] get
    different keys. *)
Lemma generateProductKey_not_permutation_invariant :
  generateProductKey integerToString "m"
    [("a", Some (VNumber (num 1))); ("b", Some (VNumber (num 2)))]
  ≠ generateProductKey integerToString "m"
      [("b", Some (VNumber (num 2))); ("a", Some (VNumber (num 1)))].
Proof. vm_compute. discriminate. Qed.

(** ** The localization scope *)

Section LocalizationFacts.

Context {node : Type} (getLocalization : string → Resolver node).

Lemma calls_app l1 l2 : calls (l1 ++ l2) = (calls l1 + calls l2)%nat.
Proof. unfold calls. by rewrite List.filter_app, length_app. Qed.

Lemma lazyReads_app l1 l2 :
  lazyReads (l1 ++ l2) = (lazyReads l1 + lazyReads l2)%nat.
Proof. unfold lazyReads. by rewrite List.filter_app, length_app. Qed.

(** A run of a resolver inherits the balance of calls and reads of the
    accessor properties from the reads it makes. *)
Lemma resolve_balance (readParam : string → Run (ParamValue node)) r :
  (∀ k log v, readParam k = (log, Some v) → calls log = lazyReads log) →
  ∀ log x, resolve node readParam r = (log, Some x) →
           calls log = lazyReads log.
Proof.
  intros Hread. induction r as [x'|k cont IH]; simpl; intros log x Hrun.
  - by injection Hrun as <- _.
  - destruct (readParam k) as [log1 [v|]] eqn:Hk; [|done].
    destruct (resolve node readParam (cont v)) as [log2 x2] eqn:Hcont.
    injection Hrun as <- ->.
    rewrite calls_app, lazyReads_app.
    rewrite (Hread _ _ _ Hk), (IH _ _ _ Hcont). done.
Qed.

Lemma readScope_plain fuel scope k :
  isLazyParam k = false →
  ∃ v, readScope node getLocalization fuel scope k = ([EGet k], Some v).
Proof.
  unfold isLazyParam. rewrite bool_decide_eq_false. intros Hk.
  destruct fuel; simpl; repeat case_decide; subst; eauto; naive_solver.
Qed.

Lemma readScope_lazy_O scope k :
  isLazyParam k = true →
  readScope node getLocalization 0 scope k = ([EGet k], None).
Proof.
  unfold isLazyParam. rewrite bool_decide_eq_true.
  by intros [-> | ->].
Qed.

Lemma readScope_lazy_S fuel scope k :
  isLazyParam k = true →
  readScope node getLocalization (S fuel) scope k
  = let '(log, x) :=
      callGetLocalization node getLocalization fuel scope
        (if decide (k = "localizedCurrency") then ls_currency scope
         else ls_name scope) in
    (EGet k :: log, PNode <$> x).
Proof.
  unfold isLazyParam. rewrite bool_decide_eq_true.
  by intros [-> | ->].
Qed.

Lemma balance_cons_get k log :
  isLazyParam k = false → calls log = lazyReads log →
  calls (EGet k :: log) = lazyReads (EGet k :: log).
Proof. unfold calls, lazyReads. simpl. by intros -> ->. Qed.

Lemma balance_cons_lazy k id log :
  isLazyParam k = true → calls log = lazyReads log →
  calls (EGet k :: ECall id :: log) = lazyReads (EGet k :: ECall id :: log).
Proof. unfold calls, lazyReads. simpl. by intros -> ->. Qed.

Lemma readScope_balance fuel scope :
  ∀ k log v, readScope node getLocalization fuel scope k = (log, Some v) →
             calls log = lazyReads log.
Proof.
  induction fuel as [|fuel IH]; intros k log v;
    destruct (isLazyParam k) eqn:Hlazy.
  - by rewrite readScope_lazy_O.
  - destruct (readScope_plain 0 scope k Hlazy) as [v' ->].
    intros [= <- _]. by apply balance_cons_get.
  - rewrite readScope_lazy_S by done.
    unfold callGetLocalization, callWith.
    destruct (resolve node _ _) as [log' x] eqn:Hrun.
    destruct x as [x|]; [|done]. intros [= <- _].
    apply balance_cons_lazy; [done|].
    by apply (resolve_balance _ _ IH _ _ Hrun).
  - destruct (readScope_plain (S fuel) scope k Hlazy) as [v' ->].
    intros [= <- _]. by apply balance_cons_get.
Qed.

(** A resolver that reads neither accessor property runs to its result
    without a call, whatever the fuel. *)
Lemma resolve_plain fuel scope r :
  neverReadsLazy r →
  ∃ log x, resolve node (readScope node getLocalization fuel scope) r
           = (log, Some x)
           ∧ calls log = 0%nat.
Proof.
  induction r as [x|k cont IH]; simpl.
  - intros _. by exists [], x.
  - intros [Hk Hcont].
    destruct (readScope_plain fuel scope k Hk) as [v ->].
    destruct (IH v (Hcont v)) as (log & x & -> & Hcalls).
    exists ([EGet k] ++ log), x. split; [done|].
    by rewrite calls_app, Hcalls.
Qed.

End LocalizationFacts.

(** C9. In every render, for the scope built from the props and the state:
    reading [localizedName] (or [localizedCurrency]) of the parameter object
    is a call of [getLocalization] with the product's name (its currency)
    and the same object, whose result is the value read; in a run of
    [getLocalization] against the object that returns, there is, besides the
    call itself, exactly one call per read of these two parameters; and
    a [getLocalization] that reads neither of them returns without any
    further call. *)
Theorem localizationScope_lazy {node} (getLocalization : string → Resolver node)
    (props : ProductProps) (st : State) :
  let scope := localizationScope props st in
  (∀ fuel,
     readScope node getLocalization (S fuel) scope "localizedName"
     = let '(log, x) :=
         callGetLocalization node getLocalization fuel scope (p_name props) in
       (EGet "localizedName" :: log, PNode <$> x))
  ∧ (∀ fuel,
       readScope node getLocalization (S fuel) scope "localizedCurrency"
       = let '(log, x) :=
           callGetLocalization node getLocalization fuel scope
             (p_currency props) in
         (EGet "localizedCurrency" :: log, PNode <$> x))
  ∧ (∀ fuel id log x,
       callGetLocalization node getLocalization fuel scope id = (log, Some x) →
       calls log = S (lazyReads log))
  ∧ (∀ fuel id,
       neverReadsLazy (getLocalization id) →
       ∃ log x,
         callGetLocalization node getLocalization fuel scope id
         = (ECall id :: log, Some x)
         ∧ calls log = 0%nat).
Proof.
  intros scope. split; [|split; [|split]].
  - intros fuel. by rewrite readScope_lazy_S.
  - intros fuel. by rewrite readScope_lazy_S.
  - intros fuel id log x. unfold callGetLocalization, callWith.
    destruct (resolve node _ _) as [log' x'] eqn:Hrun.
    intros [= <- ->].
    pose proof (resolve_balance _ _ (readScope_balance getLocalization fuel scope)
                  _ _ Hrun) as Hbal.
    unfold calls, lazyReads in *. simpl. by rewrite Hbal.
  - intros fuel id Hplain. unfold callGetLocalization, callWith.
    destruct (resolve_plain getLocalization fuel scope _ Hplain)
      as (log & x & -> & Hcalls).
    by exists log, x.
Qed.

Lemma localizationScope_lazy_witness :
  callGetLocalization string exampleLocalization 1
    (localizationScope caseProps initialState) "price"
  = ([ECall "price"; EGet "localizedCurrency"; ECall "USD"],
     Some "Price: $")
  ∧ calls [ECall "price"; EGet "localizedCurrency"; ECall "USD"]
    = S (lazyReads [ECall "price"; EGet "localizedCurrency"; ECall "USD"])
  ∧ ∃ log x,
      callGetLocalization string exampleLocalization 0
        (localizationScope caseProps initialState) "quantityLabel"
      = (ECall "quantityLabel" :: log, Some x)
      ∧ calls log = 0%nat.
Proof.
  destruct (localizationScope_lazy exampleLocalization caseProps initialState)
    as (_ & _ & Hbalance & Hplain).
  split; [reflexivity|]. split.
  - apply (Hbalance 1%nat "price" _ "Price: $"). reflexivity.
  - apply (Hplain 0%nat "quantityLabel"). exact I.
Defined.

(** ** [addProduct] on the store *)

Lemma alloc_prefix h o : h `prefix_of` (alloc h o).1.
Proof. simpl. by apply prefix_app_r. Qed.

(** Objects of a store are found unchanged in every extension of it. *)
Lemma prefix_lookup (h h' : heap) l o :
  h `prefix_of` h' → h !! l = Some o → h' !! l = Some o.
Proof. intros [k ->] Hl. by apply lookup_app_l_Some. Qed.

(** One step of a run in the option monad that is known to succeed. *)
Ltac bind_step H :=
  match type of H with
  | (?x ≫= _) = Some _ =>
      let E := fresh "E" in
      destruct x eqn:E; simpl in H; [|discriminate H]
  end.

Lemma prefix_lookup_None (h h' : heap) l :
  h `prefix_of` h' → h' !! l = None → h !! l = None.
Proof.
  intros Hpre Hl. destruct (h !! l) as [o|] eqn:Ho; [|done].
  by rewrite (prefix_lookup _ _ _ _ Hpre Ho) in Hl.
Qed.

(** Binding the parameter only allocates. *)
Lemma bindParams_prefix key h prevState h' cartProduct restOfProducts :
  bindParams key h prevState = Some (h', (cartProduct, restOfProducts)) →
  h `prefix_of` h'.
Proof.
  unfold bindParams. intros Hrun.
  bind_step Hrun.
  destruct (getField _ "products") as [| | |products]; try done.
  bind_step Hrun. bind_step Hrun.
  assert (h `prefix_of` p.1) as Hpre.
  { destruct (getField _ key); simplify_eq; [apply alloc_prefix|done]. }
  destruct p as [h1 c]. injection Hrun as <- _ _.
  etrans; [exact Hpre|]. by apply prefix_app_r.
Qed.

(** The body only allocates. *)
Lemma updaterBody_prefix key product h cartProduct restOfProducts
    h' partialState :
  updaterBody key product h cartProduct restOfProducts
  = Some (h', partialState) →
  h `prefix_of` h'.
Proof.
  unfold updaterBody. intros Hrun.
  repeat bind_step Hrun. injection Hrun as <- _.
  rewrite <- !app_assoc. by apply prefix_app_r.
Qed.

Lemma addProductUpdater_prefix key product h prevState h' partialState :
  addProductUpdater key product h prevState = Some (h', partialState) →
  h `prefix_of` h'.
Proof.
  unfold addProductUpdater. intros Hrun.
  bind_step Hrun. destruct p as [h1 [c r]].
  etrans; [by eapply bindParams_prefix|by eapply updaterBody_prefix].
Qed.

Lemma setState_prefix updater h state h' state' :
  (∀ h1 partialState,
     updater h state = Some (h1, partialState) → h `prefix_of` h1) →
  setState updater h state = Some (h', state') →
  h `prefix_of` h' ∧ (length h ≤ state')%nat.
Proof.
  unfold setState. intros Hupd Hrun.
  bind_step Hrun. destruct p as [h1 partialState].
  specialize (Hupd _ _ eq_refl).
  repeat bind_step Hrun. injection Hrun as <- <-. split.
  - etrans; [exact Hupd|]. by apply prefix_app_r.
  - by apply prefix_length.
Qed.

Lemma lookup_app_plus {A} (h l : list A) k :
  (h ++ l) !! (length h + k)%nat = l !! k.
Proof. rewrite lookup_app_r by lia. f_equal. lia. Qed.

Lemma bindParams_result key h state st products productsObj qe :
  h !! state = Some st →
  getField st "products" = JRef products →
  h !! products = Some productsObj →
  (getField productsObj key = JUndefined ∧ qe = 0
   ∨ ∃ l e, getField productsObj key = JRef l
            ∧ h !! l = Some e
            ∧ getField e "quantity" = JNumber qe) →
  ∃ h1 cartProduct restOfProducts cartProductObj,
    bindParams key h state = Some (h1, (cartProduct, restOfProducts))
    ∧ h `prefix_of` h1
    ∧ h1 !! cartProduct = Some cartProductObj
    ∧ getField cartProductObj "quantity" = JNumber qe
    ∧ h1 !! restOfProducts = Some (delete key productsObj).
Proof.
  intros Hstate Hproducts HproductsObj Hentry.
  unfold bindParams. rewrite Hstate. simpl.
  rewrite Hproducts, HproductsObj. simpl.
  destruct Hentry as [[-> ->]|(l & e & -> & He & Hqe)]; simpl.
  - eexists _, _, _, _. split; [done|]. split; [|split; [|split]].
    + rewrite <- app_assoc. by apply prefix_app_r.
    + rewrite <- app_assoc. by apply list_lookup_middle.
    + done.
    + by apply list_lookup_middle.
  - eexists _, _, _, _. split; [done|]. split; [|split; [|split]].
    + by apply prefix_app_r.
    + by apply lookup_app_l_Some.
    + done.
    + by apply list_lookup_middle.
Qed.

Lemma updaterBody_result key product h cartProduct restOfProducts
    productObj cartProductObj restObj qi qe :
  h !! product = Some productObj →
  getField productObj "quantity" = JNumber qi →
  h !! cartProduct = Some cartProductObj →
  getField cartProductObj "quantity" = JNumber qe →
  h !! restOfProducts = Some restObj →
  ∃ h' partialState newProducts item,
    updaterBody key product h cartProduct restOfProducts
    = Some (h', partialState)
    ∧ h `prefix_of` h'
    ∧ h' !! partialState = Some {[ "products" := JRef newProducts ]}
    ∧ h !! newProducts = None
    ∧ h' !! newProducts = Some (<[key := JRef item]> restObj)
    ∧ h !! item = None
    ∧ h' !! item = Some (<["quantity" := JNumber (qi + qe)]> productObj).
Proof.
  intros Hproduct Hqi Hcart Hqe Hrest.
  unfold updaterBody. rewrite Hproduct. simpl. rewrite Hcart. simpl.
  rewrite Hqi, Hqe. simpl.
  rewrite (lookup_app_l_Some _ _ _ _ Hrest). simpl.
  eexists _, _, _, _. split; [done|].
  rewrite <- !app_assoc, !length_app. simpl.
  split; [by apply prefix_app_r|].
  split; [by rewrite lookup_app_plus|].
  split; [apply lookup_ge_None; lia|].
  split; [by rewrite lookup_app_plus|].
  split; [by apply lookup_ge_None|].
  by apply list_lookup_middle.
Qed.

(** What [addProduct] does to a well-formed store, with [qe] the quantity
    already in the cart at [key], [0] if there is no entry there. *)
Lemma addProduct_result_raw key product currency h state
    st products productsObj productObj qi qe :
  h !! state = Some st →
  getField st "products" = JRef products →
  h !! products = Some productsObj →
  h !! product = Some productObj →
  getField productObj "quantity" = JNumber qi →
  (getField productsObj key = JUndefined ∧ qe = 0
   ∨ ∃ l e, getField productsObj key = JRef l
            ∧ h !! l = Some e
            ∧ getField e "quantity" = JNumber qe) →
  ∃ h' state' item,
    addProduct key product currency h state = Some (h', state')
    ∧ h `prefix_of` h'
    ∧ productsOf h' state'
      = Some (<[key := JRef item]> (delete key productsObj))
    ∧ entryOf h' state' key
      = Some (<["quantity" := JNumber (qi + qe)]> productObj)
    ∧ h' !! item = Some (<["quantity" := JNumber (qi + qe)]> productObj).
Proof.
  intros Hstate Hproducts HproductsObj Hproduct Hqi Hentry.
  destruct (bindParams_result key h state st products productsObj qe
              Hstate Hproducts HproductsObj Hentry)
    as (h1 & c & r & cobj & Hbind & Hpre1 & Hc & Hqe & Hr).
  destruct (updaterBody_result key product h1 c r productObj cobj
              (delete key productsObj) qi qe
              (prefix_lookup _ _ _ _ Hpre1 Hproduct) Hqi Hc Hqe Hr)
    as (h2 & partialState & newProducts & item
        & Hbody & Hpre2 & Hpartial & _ & Hnew & _ & Hitem).
  assert (h `prefix_of` h2) as Hpre by (by etrans).
  pose proof (prefix_lookup _ _ _ _ Hpre Hstate) as Hstate2.
  set (st' := ({[ "products" := JRef newProducts ]} : gmap string val) ∪ st).
  assert (getField st' "products" = JRef newProducts) as Hst'.
  { unfold getField, st'.
    by rewrite (lookup_union_Some_l _ _ _ (JRef newProducts))
      by apply lookup_singleton_eq. }
  exists (h2 ++ [st']), (length h2), item.
  assert (∀ l o, h2 !! l = Some o → (h2 ++ [st']) !! l = Some o) as Hkeep.
  { intros l o. apply lookup_app_l_Some. }
  split; [|split; [|split; [|split]]].
  - unfold addProduct, setState, addProductUpdater.
    rewrite Hbind. simpl. rewrite Hbody. simpl.
    rewrite Hstate2. simpl. by rewrite Hpartial.
  - etrans; [exact Hpre|]. by apply prefix_app_r.
  - unfold productsOf. rewrite list_lookup_middle by done. simpl.
    rewrite Hst'. by apply Hkeep.
  - unfold entryOf, productsOf. rewrite list_lookup_middle by done. simpl.
    rewrite Hst', (Hkeep _ _ Hnew). simpl.
    unfold getField at 1. rewrite lookup_insert_eq. simpl. by apply Hkeep.
  - by apply Hkeep.
Qed.

Lemma productsOf_inv h state productsObj :
  productsOf h state = Some productsObj →
  ∃ st products,
    h !! state = Some st
    ∧ getField st "products" = JRef products
    ∧ h !! products = Some productsObj.
Proof.
  unfold productsOf. intros Hrun. bind_step Hrun.
  destruct (getField _ "products") as [| | |products] eqn:Hp; try done.
  eauto.
Qed.

Lemma entryOf_inv h state key productsObj e :
  productsOf h state = Some productsObj →
  entryOf h state key = Some e →
  ∃ l, getField productsObj key = JRef l ∧ h !! l = Some e.
Proof.
  unfold entryOf. intros ->. simpl.
  destruct (getField productsObj key) as [| | |l]; try done. eauto.
Qed.

Lemma addProduct_result key product currency h state
    productsObj productObj qi qe :
  productsOf h state = Some productsObj →
  h !! product = Some productObj →
  getField productObj "quantity" = JNumber qi →
  (getField productsObj key = JUndefined ∧ qe = 0
   ∨ ∃ e, entryOf h state key = Some e
          ∧ getField e "quantity" = JNumber qe) →
  ∃ h' state' item,
    addProduct key product currency h state = Some (h', state')
    ∧ h `prefix_of` h'
    ∧ productsOf h' state'
      = Some (<[key := JRef item]> (delete key productsObj))
    ∧ entryOf h' state' key
      = Some (<["quantity" := JNumber (qi + qe)]> productObj)
    ∧ h' !! item = Some (<["quantity" := JNumber (qi + qe)]> productObj).
Proof.
  intros HproductsOf Hproduct Hqi Hentry.
  destruct (productsOf_inv _ _ _ HproductsOf)
    as (st & products & Hstate & Hproducts & HproductsObj).
  eapply addProduct_result_raw; eauto.
  destruct Hentry as [?|(e & He & Hqe)]; [by left|right].
  destruct (entryOf_inv _ _ _ _ _ HproductsOf He) as (l & Hl & Hle).
  eauto.
Qed.

(** C5. For a state with a collection and an incoming line item with a
    numeric quantity, [addProduct] yields a state whose collection has, at
    the key: if there was an entry, an item whose quantity is the existing
    quantity plus the incoming one and whose other fields are the incoming
    item's; if there was none, an item equal to the incoming one.  The
    entries at other keys are those of before.  Adding quantity 2 and then
    quantity 3 at a key that was absent yields quantity 5. *)
Theorem addProduct_merge key product currency h state
    productsObj productObj qi :
  productsOf h state = Some productsObj →
  h !! product = Some productObj →
  productObj !! "quantity" = Some (JNumber qi) →
  (∀ e qe,
     entryOf h state key = Some e →
     getField e "quantity" = JNumber qe →
     ∃ h' state' productsObj' item,
       addProduct key product currency h state = Some (h', state')
       ∧ productsOf h' state' = Some productsObj'
       ∧ (∀ k, k ≠ key → productsObj' !! k = productsObj !! k)
       ∧ entryOf h' state' key = Some item
       ∧ item !! "quantity" = Some (JNumber (qe + qi))
       ∧ ∀ f, f ≠ "quantity" → item !! f = productObj !! f)
  ∧ (productsObj !! key = None →
     ∃ h' state' productsObj',
       addProduct key product currency h state = Some (h', state')
       ∧ productsOf h' state' = Some productsObj'
       ∧ (∀ k, k ≠ key → productsObj' !! k = productsObj !! k)
       ∧ entryOf h' state' key = Some productObj)
  ∧ (productsObj !! key = None →
     qi = num 2 →
     ∀ product' productObj',
       h !! product' = Some productObj' →
       productObj' !! "quantity" = Some (JNumber (num 3)) →
       ∃ h1 state1 h2 state2 item,
         addProduct key product currency h state = Some (h1, state1)
         ∧ addProduct key product' currency h1 state1 = Some (h2, state2)
         ∧ entryOf h2 state2 key = Some item
         ∧ item !! "quantity" = Some (JNumber (num 5))).
Proof.
  intros HproductsOf Hproduct Hqi.
  assert (getField productObj "quantity" = JNumber qi) as Hqi'.
  { unfold getField. by rewrite Hqi. }
  assert (∀ m : gmap string val, ∀ l k,
            k ≠ key → <[key := JRef l]> (delete key m) !! k = m !! k)
    as Hother.
  { intros m l k Hk. by rewrite lookup_insert_ne, lookup_delete_ne. }
  assert (productsObj !! key = None →
          ∃ h' state' productsObj',
            addProduct key product currency h state = Some (h', state')
            ∧ h `prefix_of` h'
            ∧ productsOf h' state' = Some productsObj'
            ∧ (∀ k, k ≠ key → productsObj' !! k = productsObj !! k)
            ∧ entryOf h' state' key = Some productObj) as Habsent.
  { intros Hnone.
    assert (getField productsObj key = JUndefined) as Hundef.
    { unfold getField. by rewrite Hnone. }
    destruct (addProduct_result key product currency h state
                productsObj productObj qi 0 HproductsOf Hproduct Hqi'
                (or_introl (conj Hundef eq_refl)))
      as (h' & state' & item & Hrun & Hpre & Hcoll & Hentry & _).
    exists h', state', (<[key := JRef item]> (delete key productsObj)).
    split; [done|]. split; [done|]. split; [done|]. split; [by auto|].
    rewrite Hentry. f_equal.
    replace (qi + 0) with qi by ring. by apply insert_id. }
  split; [|split].
  - intros e qe He Hqe.
    destruct (addProduct_result key product currency h state
                productsObj productObj qi qe HproductsOf Hproduct Hqi'
                (or_intror (ex_intro _ e (conj He Hqe))))
      as (h' & state' & item & Hrun & _ & Hcoll & Hentry & _).
    exists h', state', (<[key := JRef item]> (delete key productsObj)),
      (<["quantity" := JNumber (qi + qe)]> productObj).
    split; [done|]. split; [done|]. split; [by auto|]. split; [done|].
    split.
    + rewrite lookup_insert_eq. do 2 f_equal. ring.
    + intros f Hf. by rewrite lookup_insert_ne.
  - intros Hnone.
    destruct (Habsent Hnone) as (h' & state' & productsObj' & ? & _ & ?).
    by exists h', state', productsObj'.
  - intros Hnone -> product' productObj' Hproduct' Hq'.
    destruct (Habsent Hnone)
      as (h1 & state1 & productsObj1 & Hrun1 & Hpre1 & Hcoll1 & _ & Hentry1).
    assert (getField productObj' "quantity" = JNumber (num 3)) as Hq3.
    { unfold getField. by rewrite Hq'. }
    destruct (addProduct_result key product' currency h1 state1
                productsObj1 productObj' (num 3) (num 2) Hcoll1
                (prefix_lookup _ _ _ _ Hpre1 Hproduct') Hq3
                (or_intror (ex_intro _ productObj (conj Hentry1 Hqi'))))
      as (h2 & state2 & item & Hrun2 & _ & _ & Hentry2 & _).
    exists h1, state1, h2, state2,
      (<["quantity" := JNumber (num 3 + num 2)]> productObj').
    split; [done|]. split; [done|]. split; [done|].
    rewrite lookup_insert_eq.
    by replace (num 3 + num 2) with (num 5) by (symmetry; qc_compute).
Qed.

Lemma addProduct_merge_witness :
  (∃ h' state' productsObj' item,
     addProduct "m/" 3 "GBP" exampleStoreAdded.1 exampleStoreAdded.2
     = Some (h', state')
     ∧ productsOf h' state' = Some productsObj'
     ∧ (∀ k, k ≠ "m/" → productsObj' !! k
                        = ({[ "m/" := JRef 6 ]} : gmap string val) !! k)
     ∧ entryOf h' state' "m/" = Some item
     ∧ item !! "quantity" = Some (JNumber (num 2 + 0 + num 3))
     ∧ ∀ f, f ≠ "quantity" → item !! f = exampleItem (num 3) !! f)
  ∧ (∃ h' state' productsObj',
       addProduct "m/" 2 "GBP" exampleStore 1 = Some (h', state')
       ∧ productsOf h' state' = Some productsObj'
       ∧ (∀ k, k ≠ "m/" → productsObj' !! k = (∅ : gmap string val) !! k)
       ∧ entryOf h' state' "m/" = Some (exampleItem (num 2)))
  ∧ ∃ h1 state1 h2 state2 item,
      addProduct "m/" 2 "GBP" exampleStore 1 = Some (h1, state1)
      ∧ addProduct "m/" 3 "GBP" h1 state1 = Some (h2, state2)
      ∧ entryOf h2 state2 "m/" = Some item
      ∧ item !! "quantity" = Some (JNumber (num 5)).
Proof.
  assert (productsOf exampleStoreAdded.1 exampleStoreAdded.2
          = Some {[ "m/" := JRef 6 ]}) as Hcoll
    by (vm_compute; reflexivity).
  assert (exampleStoreAdded.1 !! 3%nat = Some (exampleItem (num 3))) as Hitem
    by (vm_compute; reflexivity).
  assert (entryOf exampleStoreAdded.1 exampleStoreAdded.2 "m/"
          = Some (<["quantity" := JNumber (num 2 + 0)]> (exampleItem (num 2))))
    as Hentry by (vm_compute; reflexivity).
  assert (productsOf exampleStore 1 = Some ∅) as Hcoll0
    by (vm_compute; reflexivity).
  split; [|split].
  - apply (proj1 (addProduct_merge "m/" 3 "GBP"
                    exampleStoreAdded.1 exampleStoreAdded.2
                    {[ "m/" := JRef 6 ]} (exampleItem (num 3)) (num 3)
                    Hcoll Hitem eq_refl)
             (<["quantity" := JNumber (num 2 + 0)]> (exampleItem (num 2)))
             (num 2 + 0) Hentry eq_refl).
  - apply (proj1 (proj2 (addProduct_merge "m/" 2 "GBP" exampleStore 1
                           ∅ (exampleItem (num 2)) (num 2)
                           Hcoll0 eq_refl eq_refl)) eq_refl).
  - apply (proj2 (proj2 (addProduct_merge "m/" 2 "GBP" exampleStore 1
                           ∅ (exampleItem (num 2)) (num 2)
                           Hcoll0 eq_refl eq_refl))
             eq_refl eq_refl 3%nat (exampleItem (num 3)) eq_refl eq_refl).
Defined.

(** The partial state the body returns holds a collection allocated by
    it. *)
Lemma updaterBody_new_collection key product h cartProduct restOfProducts
    h' partialState :
  updaterBody key product h cartProduct restOfProducts
  = Some (h', partialState) →
  ∃ newProducts,
    h' !! partialState = Some {[ "products" := JRef newProducts ]}
    ∧ h !! newProducts = None.
Proof.
  unfold updaterBody. intros Hrun.
  repeat bind_step Hrun. injection Hrun as <- <-.
  eexists. split.
  - by apply list_lookup_middle.
  - apply lookup_ge_None. rewrite length_app. lia.
Qed.

(** C8. [addProduct] is a pure transformation of the store: on a
    well-formed input it returns, and whenever it returns every object of
    the caller's store, the input collection and each of its entries among
    them, is found unchanged at its reference, while the new state and the
    collection it holds are newly allocated objects. *)
Theorem addProduct_pure key product currency h state :
  (wfInput h state key product →
   ∃ h' state', addProduct key product currency h state = Some (h', state'))
  ∧ (∀ h' state',
       addProduct key product currency h state = Some (h', state') →
       (∀ l o, h !! l = Some o → h' !! l = Some o)
       ∧ h !! state' = None
       ∧ ∃ st' products',
           h' !! state' = Some st'
           ∧ getField st' "products" = JRef products'
           ∧ h !! products' = None).
Proof.
  split.
  - intros (st & products & productsObj & productObj & qi
            & Hstate & Hproducts & HproductsObj & Hproduct & Hqi & Hentry).
    assert (∃ qe,
              getField productsObj key = JUndefined ∧ qe = 0
              ∨ ∃ l e, getField productsObj key = JRef l
                       ∧ h !! l = Some e
                       ∧ getField e "quantity" = JNumber qe) as [qe Hentry'].
    { destruct Hentry as [Hundef|(l & e & qe & ?)].
      - exists 0. by left.
      - exists qe. right. eauto. }
    destruct (addProduct_result_raw key product currency h state st products
                productsObj productObj qi qe Hstate Hproducts HproductsObj
                Hproduct Hqi Hentry')
      as (h' & state' & _ & Hrun & _).
    eauto.
  - intros h' state' Hrun.
    destruct (setState_prefix _ _ _ _ _
                (addProductUpdater_prefix key product h state) Hrun)
      as [Hpre Hfresh].
    split; [|split].
    + intros l o. by apply prefix_lookup.
    + by apply lookup_ge_None.
    + unfold addProduct, setState in Hrun.
      bind_step Hrun. destruct p as [h1 partialState].
      unfold addProductUpdater in E. bind_step E.
      destruct p as [h0 [c r]].
      destruct (updaterBody_new_collection _ _ _ _ _ _ _ E)
        as (newProducts & Hpartial & Hnew).
      repeat bind_step Hrun. injection Hrun as <- <-.
      injection Hpartial as ->.
      eexists _, newProducts. split; [|split].
      * by apply list_lookup_middle.
      * unfold getField.
        by rewrite (lookup_union_Some_l _ _ _ (JRef newProducts))
          by apply lookup_singleton_eq.
      * eapply prefix_lookup_None; [|exact Hnew].
        by eapply bindParams_prefix.
Qed.

Lemma addProduct_pure_witness :
  ∃ h' state',
    addProduct "m/" 2 "GBP" exampleStore 1 = Some (h', state')
    ∧ (∀ l o, exampleStore !! l = Some o → h' !! l = Some o)
    ∧ exampleStore !! state' = None.
Proof.
  assert (wfInput exampleStore 1 "m/" 2) as Hwf.
  { exists {[ "products" := JRef 0 ]}, 0%nat, ∅, (exampleItem (num 2)), (num 2).
    repeat (split; [reflexivity|]). left. reflexivity. }
  destruct (proj1 (addProduct_pure "m/" 2 "GBP" exampleStore 1) Hwf)
    as (h' & state' & Hrun).
  exists h', state'. split; [exact Hrun|].
  destruct (proj2 (addProduct_pure "m/" 2 "GBP" exampleStore 1)
              h' state' Hrun) as (Hframe & Hfresh & _).
  split; [exact Hframe|exact Hfresh].
Defined.

(** * Further properties *)

(** ** What the selected indexes are read for *)

Lemma selectedOptionOf_agree opts sel sel' g :
  bitor0 (sel !! g) = bitor0 (sel' !! g) →
  selectedOptionOf opts sel g = selectedOptionOf opts sel' g.
Proof. unfold selectedOptionOf. by intros ->. Qed.

Lemma calculateAdditionalCost_agree properties sel sel' currency :
  (∀ g, g ∈ keys properties → bitor0 (sel !! g) = bitor0 (sel' !! g)) →
  calculateAdditionalCost properties sel currency
  = calculateAdditionalCost properties sel' currency.
Proof.
  induction properties as [|[g opts] rest IH]; intros Hagree; [done|].
  rewrite !calculateAdditionalCost_cons.
  rewrite (selectedOptionOf_agree opts sel sel' g), IH; [done| |].
  - intros g' Hg'. apply Hagree. unfold keys. simpl.
    by apply list_elem_of_further.
  - apply Hagree. unfold keys. simpl. apply list_elem_of_here.
Qed.

(** X1. [calculateAdditionalCost], and with it the price [render] shows,
    reads the selected indexes only as [index|0] at the names of the
    product's own option groups: two maps that agree there give the same
    cost.  So a group without an entry counts as index 0, and entries for
    names that are no group of the product are ignored. *)
Theorem calculateAdditionalCost_reads_own_groups
    (props : ProductProps) (st st' : State) :
  (∀ g, g ∈ keys (p_properties props) →
        bitor0 (selectedPropertyIndexes st !! g)
        = bitor0 (selectedPropertyIndexes st' !! g)) →
  (∀ currency,
     calculateAdditionalCost (p_properties props)
       (selectedPropertyIndexes st) currency
     = calculateAdditionalCost (p_properties props)
         (selectedPropertyIndexes st') currency)
  ∧ renderPrice props st = renderPrice props st'.
Proof.
  intros Hagree.
  assert (∀ currency,
            calculateAdditionalCost (p_properties props)
              (selectedPropertyIndexes st) currency
            = calculateAdditionalCost (p_properties props)
                (selectedPropertyIndexes st') currency) as Hcost.
  { intros currency. by apply calculateAdditionalCost_agree. }
  split; [done|]. unfold renderPrice. by rewrite Hcost.
Qed.

Lemma calculateAdditionalCost_reads_own_groups_witness :
  renderPrice caseProps initialState
  = renderPrice caseProps
      {| quantity := 1;
         selectedPropertyIndexes := {[ "colour" := 0%Z; "size" := 7%Z ]} |}.
Proof.
  apply (calculateAdditionalCost_reads_own_groups caseProps initialState
           {| quantity := 1;
              selectedPropertyIndexes :=
                {[ "colour" := 0%Z; "size" := 7%Z ]} |}).
  intros g Hg. apply list_elem_of_singleton in Hg. subst g. reflexivity.
Defined.

(** X2. The line item of [generateCartProduct] depends on the selected
    indexes in the same way only: maps that agree as [index|0] at the
    product's group names give the same line item, properties and prices
    alike. *)
Theorem generateCartProduct_reads_own_groups
    (props : ProductProps) (q : Qc) (sel sel' : gmap string Z) :
  (∀ g, g ∈ keys (p_properties props) →
        bitor0 (sel !! g) = bitor0 (sel' !! g)) →
  generateCartProduct props q sel = generateCartProduct props q sel'.
Proof.
  intros Hagree. unfold generateCartProduct, reduce, entries.
  f_equal; [|f_equal].
  - apply foldl_ext_in. intros acc [g opts] Hin.
    rewrite (Hagree g); [done|].
    unfold keys. apply list_elem_of_fmap. by exists (g, opts).
  - apply foldl_ext_in. intros acc [currency price] _.
    by rewrite (calculateAdditionalCost_agree _ sel sel' currency Hagree).
Qed.

Lemma generateCartProduct_reads_own_groups_witness :
  generateCartProduct caseProps 1 ∅
  = generateCartProduct caseProps 1 {[ "colour" := 4294967296%Z ]}.
Proof.
  apply (generateCartProduct_reads_own_groups caseProps 1 ∅
           {[ "colour" := 4294967296%Z ]}).
  intros g Hg. apply list_elem_of_singleton in Hg. subst g. reflexivity.
Defined.

(** ** Prices never below the base price *)

Lemma array_get_elem_of {A} (a : list A) i x :
  array_get a i = Some x → x ∈ a.
Proof.
  unfold array_get. case_decide; [|done].
  intros Hx. by eapply list_elem_of_lookup_2.
Qed.

Lemma calculateAdditionalCost_nonneg properties sel currency :
  (∀ g opts o costs x,
     (g, opts) ∈ properties → Shape o ∈ opts →
     additionalCost o = Some costs → costs !! currency = Some x →
     0 ≤ x) →
  0 ≤ calculateAdditionalCost properties sel currency.
Proof.
  induction properties as [|[g opts] rest IH]; intros Hcosts; [done|].
  rewrite calculateAdditionalCost_cons.
  rewrite <- (Qcplus_0_l 0) at 1. apply Qcplus_le_compat.
  - unfold optionCost.
    destruct (selectedOptionOf opts sel g) as [[v|o]|] eqn:Hsel; try done.
    destruct (additionalCost o) as [costs|] eqn:Hc; [|done].
    destruct (costs !! currency) as [x|] eqn:Hx; [|done].
    case_decide; [done|].
    apply (Hcosts g opts o costs x); [apply list_elem_of_here| |done..].
    by apply (array_get_elem_of _ _ _ Hsel).
  - apply IH. intros g' opts' o costs x Hin.
    apply (Hcosts g' opts' o costs x). by apply list_elem_of_further.
Qed.

(** X3. When no option of the product carries a negative additional cost
    for the currency, the additional cost is not negative whatever is
    selected, and the price shown is at least the base price. *)
Theorem renderPrice_at_least_base (props : ProductProps) (st : State) base :
  (∀ g opts o costs x,
     (g, opts) ∈ p_properties props → Shape o ∈ opts →
     additionalCost o = Some costs → costs !! p_currency props = Some x →
     0 ≤ x) →
  p_prices props !! p_currency props = Some base →
  0 ≤ calculateAdditionalCost (p_properties props)
        (selectedPropertyIndexes st) (p_currency props)
  ∧ ∃ price, renderPrice props st = Some price ∧ base ≤ price.
Proof.
  intros Hcosts Hbase.
  pose proof (calculateAdditionalCost_nonneg _ (selectedPropertyIndexes st)
                _ Hcosts) as Hnonneg.
  split; [done|].
  unfold renderPrice. rewrite Hbase. simpl. eexists. split; [done|].
  rewrite <- (Qcplus_0_r base) at 1. by apply Qcplus_le_compat.
Qed.

Lemma renderPrice_at_least_base_witness :
  ∃ price,
    renderPrice caseProps
      {| quantity := 1; selectedPropertyIndexes := {[ "colour" := 1%Z ]} |}
    = Some price
    ∧ num 70 ≤ price.
Proof.
  apply (renderPrice_at_least_base caseProps
           {| quantity := 1; selectedPropertyIndexes := {[ "colour" := 1%Z ]} |}
           (num 70)); [|reflexivity].
  intros g opts o costs x Hin Ho Hcosts Hx.
  apply list_elem_of_singleton in Hin. injection Hin as -> ->.
  apply elem_of_cons in Ho as [Ho|Ho]; [discriminate Ho|].
  apply list_elem_of_singleton in Ho. injection Ho as ->.
  injection Hcosts as <-.
  change (p_currency caseProps) with "USD" in Hx.
  rewrite lookup_singleton_eq in Hx. injection Hx as <-.
  by vm_compute.
Defined.

(** ** Which line items share a key *)

Lemma char_free_prefix c a b x y :
  charFree c a = true → charFree c b = true →
  a +:+ String c x = b +:+ String c y → a = b ∧ x = y.
Proof.
  revert b. induction a as [|z a IH]; intros [|z' b] Ha Hb Heq; simpl in *.
  - by injection Heq as ->.
  - injection Heq as <- _.
    apply andb_true_iff in Hb as [Hb _]. by rewrite Ascii.eqb_refl in Hb.
  - injection Heq as -> _.
    apply andb_true_iff in Ha as [Ha _]. by rewrite Ascii.eqb_refl in Ha.
  - injection Heq as -> Heq.
    apply andb_true_iff in Ha as [_ Ha]. apply andb_true_iff in Hb as [_ Hb].
    destruct (IH b Ha Hb Heq) as [-> ->]. done.
Qed.

(** X4. Keys of [generateProductKey] keep products apart: when the ids
    contain no slash, two line items with the same key have the same id,
    whatever their properties. *)
Theorem generateProductKey_determines_id
    (NumberToString : Qc → string) id id' properties properties' :
  charFree "/" id = true → charFree "/" id' = true →
  generateProductKey NumberToString id properties
  = generateProductKey NumberToString id' properties' →
  id = id'.
Proof.
  unfold generateProductKey. intros Hid Hid' Heq.
  by destruct (char_free_prefix "/" id id' _ _ Hid Hid' Heq).
Qed.

Lemma generateProductKey_determines_id_witness :
  generateProductKey integerToString "ipad-case"
    [("a", Some (VString "1_b,2")); ("b", Some (VString "3"))]
  = generateProductKey integerToString "ipad-case"
      [("a", Some (VString "1")); ("b", Some (VString "2_b,3"))]
  ∧ "ipad-case" = "ipad-case".
Proof.
  assert (generateProductKey integerToString "ipad-case"
            [("a", Some (VString "1_b,2")); ("b", Some (VString "3"))]
          = generateProductKey integerToString "ipad-case"
              [("a", Some (VString "1")); ("b", Some (VString "2_b,3"))])
    as Hkey by (vm_compute; reflexivity).
  split; [exact Hkey|].
  exact (generateProductKey_determines_id integerToString
           "ipad-case" "ipad-case" _ _ eq_refl eq_refl Hkey).
Defined.

Lemma join_cons2 sep x y l :
  join sep (x :: y :: l) = x +:+ sep +:+ join sep (y :: l).
Proof. reflexivity. Qed.

Lemma entryToString_eq (NumberToString : Qc → string) e :
  entryToString NumberToString e
  = e.1 +:+ "," +:+ valueToString NumberToString e.2.
Proof. reflexivity. Qed.

Lemma join_values_inj (NumberToString : Qc → string)
    (p p' : object (option OptionValue)) :
  keys p = keys p' →
  Forall (λ e, charFree "_" (valueToString NumberToString e.2) = true) p →
  Forall (λ e, charFree "_" (valueToString NumberToString e.2) = true) p' →
  join "_" (entryToString NumberToString <$> p)
  = join "_" (entryToString NumberToString <$> p') →
  (λ e, valueToString NumberToString e.2) <$> p
  = (λ e, valueToString NumberToString e.2) <$> p'.
Proof.
  unfold keys.
  revert p'. induction p as [|[n v] t IH]; intros [|[n' v'] t'] Hkeys Hp Hp';
    try done.
  injection Hkeys as <- Hkeys.
  apply Forall_cons in Hp as [Hv Hp]. apply Forall_cons in Hp' as [Hv' Hp'].
  destruct t as [|e2 t]; destruct t' as [|e2' t']; try done.
  - intros Heq.
    change (n +:+ "," +:+ valueToString NumberToString v
            = n +:+ "," +:+ valueToString NumberToString v') in Heq.
    apply (inj (String.app n)) in Heq.
    apply (inj (String.app ",")) in Heq.
    rewrite !fmap_cons. cbn [snd]. by rewrite Heq.
  - intros Heq. rewrite !fmap_cons, !join_cons2, !entryToString_eq in Heq.
    cbn [fst snd] in Heq. rewrite !append_assoc in Heq.
    apply (inj (String.app n)) in Heq.
    apply (inj (String.app ",")) in Heq.
    destruct (char_free_prefix "_" _ _ _ _ Hv Hv' Heq) as [Hs Hrest].
    rewrite (fmap_cons _ (n, v)), (fmap_cons _ (n, v')).
    cbn [snd] in Hs |- *. rewrite Hs. f_equal.
    apply (IH (e2' :: t')); [done..|].
    rewrite !fmap_cons, !entryToString_eq. exact Hrest.
Qed.

(** X5. Keys of [generateProductKey] keep the selections of a product
    apart as far as the values print differently: for two property objects
    with the same names in the same order whose printed values contain no
    underscore, equal keys mean equal printed values, entry by entry.  With
    an underscore in a value two different selections can share a key:
    [{a: "1_b,2", b: "3"}] and [{a: "1", b: "2_b,3"}] do. *)
Theorem generateProductKey_determines_values
    (NumberToString : Qc → string) id
    (properties properties' : object (option OptionValue)) :
  (keys properties = keys properties' →
   Forall (λ e, charFree "_" (valueToString NumberToString e.2) = true)
     properties →
   Forall (λ e, charFree "_" (valueToString NumberToString e.2) = true)
     properties' →
   generateProductKey NumberToString id properties
   = generateProductKey NumberToString id properties' →
   (λ e, valueToString NumberToString e.2) <$> properties
   = (λ e, valueToString NumberToString e.2) <$> properties')
  ∧ generateProductKey NumberToString id
      [("a", Some (VString "1_b,2")); ("b", Some (VString "3"))]
    = generateProductKey NumberToString id
        [("a", Some (VString "1")); ("b", Some (VString "2_b,3"))].
Proof.
  split.
  - intros Hkeys Hp Hp' Heq. unfold generateProductKey, entries in Heq.
    apply (inj (String.app id)) in Heq.
    apply (inj (String.app "/")) in Heq.
    by apply (join_values_inj NumberToString).
  - unfold generateProductKey, entries. do 2 f_equal.
Qed.

Lemma generateProductKey_determines_values_witness :
  (λ e, valueToString integerToString e.2)
  <$> [("size", Some (VString "1"))]
  = (λ e, valueToString integerToString e.2)
    <$> [("size", Some (VNumber (num 1)))].
Proof.
  apply (proj1 (generateProductKey_determines_values integerToString "m"
                  [("size", Some (VString "1"))]
                  [("size", Some (VNumber (num 1)))])).
  - reflexivity.
  - apply Forall_cons. split; [reflexivity|apply Forall_nil_2].
  - apply Forall_cons. split; [reflexivity|apply Forall_nil_2].
  - reflexivity.
Defined.

(** ** The quantity in the state of the form *)

Lemma Qc_of_Z_eq_0 n : Qc_of_Z n = 0 → n = 0%Z.
Proof. intros Heq. apply (f_equal this) in Heq. by injection Heq. Qed.

(** X6. The quantity and the selected indexes share the names of
    [this.state]: a change of a property called [quantity] to index [i] sets
    the quantity of the form to [i] and records no selected index, so that
    the option priced and added for that group stays the one at index 0;
    with [i = 0] the form no longer submits. *)
Theorem hanglePropertyValueChange_quantity_name
    (st : State) (value : gmap string Z) (i : Z) :
  value !! "quantity" = Some i →
  let st' := hanglePropertyValueChange st value in
  quantity st' = Qc_of_Z i
  ∧ selectedPropertyIndexes st' !! "quantity" = None
  ∧ (∀ opts,
       selectedOptionOf opts (selectedPropertyIndexes st') "quantity"
       = array_get opts 0)
  ∧ (i = 0%Z →
     ∀ generateKey props timeout env,
       (addProductFormSubmit generateKey props
          {| i_state := st'; scrollTimeout := timeout |} env).2 = None).
Proof.
  intros Hvalue st'. subst st'. unfold hanglePropertyValueChange. simpl.
  rewrite Hvalue.
  split; [done|]. split; [by rewrite lookup_delete_eq|]. split.
  - intros opts. unfold selectedOptionOf. by rewrite lookup_delete_eq.
  - intros -> generateKey props timeout env.
    unfold addProductFormSubmit. simpl. reflexivity.
Qed.

Lemma hanglePropertyValueChange_quantity_name_witness :
  quantity (hanglePropertyValueChange initialState {[ "quantity" := 2%Z ]})
  = Qc_of_Z 2.
Proof.
  apply (hanglePropertyValueChange_quantity_name initialState
           {[ "quantity" := 2%Z ]} 2).
  reflexivity.
Defined.

Lemma handleEvent_natural (ToNumber : string → option Qc) st ev :
  isNaturalNumber (Some (quantity st)) = true →
  match ev with
  | PropertySelect value => value !! "quantity" = None
  | QuantityInput _ => True
  end →
  isNaturalNumber (Some (quantity (handleEvent ToNumber st ev))) = true.
Proof.
  intros Hst Hev. destruct ev as [value|value]; simpl.
  - unfold handleQuantityValueChange.
    destruct (isNaturalNumber (ToNumber value)) eqn:Hnat; [|done].
    by destruct (ToNumber value).
  - by rewrite Hev.
Qed.

(** X7. From the initial state, whatever is typed into the quantity input
    and whichever options are selected (no property being called
    [quantity]), the quantity in the state is a positive integer; a
    submission then calls [onAddProduct], with a line item of that
    quantity. *)
Theorem form_quantity_positive_integer
    (ToNumber : string → option Qc)
    (generateKey : string → object (option OptionValue) → string)
    (props : ProductProps) (events : list FormEvent)
    (timeout : option nat) (env : Timers) :
  Forall (λ ev, match ev with
                | PropertySelect value => value !! "quantity" = None
                | QuantityInput _ => True
                end) events →
  let st := foldl (handleEvent ToNumber) initialState events in
  (∃ n : Z, (0 < n)%Z ∧ quantity st = Qc_of_Z n)
  ∧ ∃ call,
      (addProductFormSubmit generateKey props
         {| i_state := st; scrollTimeout := timeout |} env).2 = Some call
      ∧ cp_quantity (call_product call) = quantity st
      ∧ call_key call
        = generateKey (p_id props) (cp_properties (call_product call)).
Proof.
  intros Hevents st.
  assert (isNaturalNumber (Some (quantity st)) = true) as Hnat.
  { subst st. revert Hevents.
    assert (isNaturalNumber (Some (quantity initialState)) = true) as Hinit
      by reflexivity.
    revert Hinit. generalize initialState as st0.
    induction events as [|ev events IH]; intros st0 Hst0 Hevents; [done|].
    apply Forall_cons in Hevents as [Hev Hevents]. simpl.
    apply IH; [|done]. by apply handleEvent_natural. }
  apply isNaturalNumber_spec in Hnat as (n & Hn & [= Hq]).
  split; [by exists n|].
  unfold addProductFormSubmit. simpl.
  rewrite decide_False.
  - destruct timeout; simpl; eexists; done.
  - rewrite Hq. intros Hzero%Qc_of_Z_eq_0. lia.
Qed.

Lemma form_quantity_positive_integer_witness :
  ∃ n : Z,
    (0 < n)%Z
    ∧ quantity
        (foldl (handleEvent ToNumberDecimal) initialState
           [QuantityInput "3"; PropertySelect {[ "colour" := 1%Z ]};
            QuantityInput "-1"; QuantityInput "2.5"])
      = Qc_of_Z n.
Proof.
  apply (form_quantity_positive_integer ToNumberDecimal
           (generateProductKey integerToString) caseProps
           [QuantityInput "3"; PropertySelect {[ "colour" := 1%Z ]};
            QuantityInput "-1"; QuantityInput "2.5"]
           None {| pending := ∅; nextTimer := 1 |}).
  repeat (apply Forall_cons; split; [done|]). apply Forall_nil_2.
Defined.

(** ** The scroll timer *)

Lemma step_known_timers generateKey ToNumber props x y :
  step generateKey ToNumber props x y →
  pending x.2 ⊆ knownTimers x.1 → pending y.2 ⊆ knownTimers y.1.
Proof.
  intros Hstep. destruct Hstep as [c env|c env t Ht|c env ev]; simpl.
  - unfold addProductFormSubmit, clearScrollTimeout, knownTimers.
    case_decide; [done|].
    destruct (scrollTimeout c) as [t|]; simpl; set_solver.
  - unfold knownTimers. set_solver.
  - done.
Qed.

Lemma steps_known_timers generateKey ToNumber props x y :
  rtc (step generateKey ToNumber props) x y →
  pending x.2 ⊆ knownTimers x.1 → pending y.2 ⊆ knownTimers y.1.
Proof.
  induction 1 as [x|x y z Hstep _ IH]; [done|].
  intros Hx. by apply IH, (step_known_timers _ _ _ _ _ Hstep).
Qed.

(** X8. However a mounted component is used (submissions, timers firing,
    inputs), every pending scroll timer is the one held in
    [this.scrollTimeout], so that at most one is pending; and
    [componentWillUnmount] leaves none pending and the field undefined: no
    scroll is started after the component is gone. *)
Theorem scroll_timer_single generateKey ToNumber props c env :
  rtc (step generateKey ToNumber props) mounted (c, env) →
  pending env ⊆ knownTimers c
  ∧ (size (pending env) ≤ 1)%nat
  ∧ pending (componentWillUnmount c env).2 = ∅
  ∧ scrollTimeout (componentWillUnmount c env).1 = None.
Proof.
  intros Hrun.
  pose proof (steps_known_timers _ _ _ _ _ Hrun) as Hinv.
  simpl in Hinv. specialize (Hinv (reflexivity _)).
  split; [done|]. split; [|split].
  - etrans; [by apply subseteq_size|].
    unfold knownTimers. destruct (scrollTimeout c).
    + rewrite size_singleton. lia.
    + rewrite size_empty. lia.
  - unfold componentWillUnmount, clearScrollTimeout, knownTimers in *.
    destruct (scrollTimeout c) as [t|]; simpl;
      apply leibniz_equiv; set_solver.
  - unfold componentWillUnmount, clearScrollTimeout.
    by destruct (scrollTimeout c) eqn:Htimeout.
Qed.

Lemma scroll_timer_single_witness :
  (size (pending
           (addProductFormSubmit (generateProductKey integerToString)
              caseProps mounted.1 mounted.2).1.2) ≤ 1)%nat.
Proof.
  refine (proj1 (proj2 (scroll_timer_single
                          (generateProductKey integerToString)
                          ToNumberDecimal caseProps _ _ _))).
  apply rtc_once.
  rewrite <- surjective_pairing.
  apply (step_submit _ _ _ mounted.1 mounted.2).
Defined.

(** ** The cart shows the price of the form *)

Lemma generateCartProduct_price props q sel currency :
  pi_prices (cp_productInfo (generateCartProduct props q sel)) !! currency
  = (λ price,
       price + calculateAdditionalCost (p_properties props) sel currency)
    <$> p_prices props !! currency.
Proof.
  unfold generateCartProduct. simpl.
  rewrite (reduce_insert_lookup
             (λ currency price,
                price + calculateAdditionalCost (p_properties props) sel
                          currency))
    by apply NoDup_fst_map_to_list.
  rewrite list_to_map_to_list.
  by destruct (p_prices props !! currency).
Qed.

(** X9. A line item that the product form generated is shown by the cart,
    in whatever currency the cart is given, with the quantity that was
    submitted and at the price the form displays for that currency with the
    options selected at the time of adding; where the product has no base
    price in the currency, both are not a number. *)
Theorem Cart_render_price_of_form
    (props : ProductProps) (st : State) (products : object CartProduct)
    (key currency : string) :
  (key, generateCartProduct props (quantity st) (selectedPropertyIndexes st))
  ∈ entries products →
  ∃ row,
    row ∈ Cart_render products currency
    ∧ row_key row = key
    ∧ row_quantity row = quantity st
    ∧ row_price row = renderPrice (withCurrency props currency) st.
Proof.
  intros Hin. unfold Cart_render.
  eexists. split.
  - apply list_elem_of_fmap. eexists. split; [|exact Hin]. reflexivity.
  - cbn [row_key row_quantity row_price]. split; [done|]. split; [done|].
    by rewrite generateCartProduct_price.
Qed.

Lemma Cart_render_price_of_form_witness :
  ∃ row,
    row ∈ Cart_render
            [("case/colour,yellow",
              generateCartProduct caseProps 1 {[ "colour" := 1%Z ]})] "USD"
    ∧ row_key row = "case/colour,yellow"
    ∧ row_quantity row = 1
    ∧ row_price row
      = renderPrice (withCurrency caseProps "USD")
          {| quantity := 1;
             selectedPropertyIndexes := {[ "colour" := 1%Z ]} |}.
Proof.
  apply (Cart_render_price_of_form caseProps
           {| quantity := 1; selectedPropertyIndexes := {[ "colour" := 1%Z ]} |}
           [("case/colour,yellow",
             generateCartProduct caseProps 1 {[ "colour" := 1%Z ]})]
           "case/colour,yellow" "USD").
  apply list_elem_of_here.
Defined.

(** ** What an addition leaves alone *)

(** The run of [addProduct] once more, with the reference of the new line
    item. *)
Lemma addProduct_result_fresh key product currency h state
    productsObj productObj qi qe :
  productsOf h state = Some productsObj →
  h !! product = Some productObj →
  getField productObj "quantity" = JNumber qi →
  (getField productsObj key = JUndefined ∧ qe = 0
   ∨ ∃ e, entryOf h state key = Some e
          ∧ getField e "quantity" = JNumber qe) →
  ∃ h' state' item,
    addProduct key product currency h state = Some (h', state')
    ∧ h `prefix_of` h'
    ∧ productsOf h' state'
      = Some (<[key := JRef item]> (delete key productsObj))
    ∧ h !! item = None
    ∧ h' !! item = Some (<["quantity" := JNumber (qi + qe)]> productObj).
Proof.
  intros HproductsOf Hproduct Hqi Hentry.
  destruct (productsOf_inv _ _ _ HproductsOf)
    as (st & products & Hstate & Hproducts & HproductsObj).
  assert (getField productsObj key = JUndefined ∧ qe = 0
          ∨ ∃ l e, getField productsObj key = JRef l
                   ∧ h !! l = Some e
                   ∧ getField e "quantity" = JNumber qe) as Hentry'.
  { destruct Hentry as [?|(e & He & Hqe)]; [by left|right].
    destruct (entryOf_inv _ _ _ _ _ HproductsOf He) as (l & Hl & Hle).
    eauto. }
  destruct (bindParams_result key h state st products productsObj qe
              Hstate Hproducts HproductsObj Hentry')
    as (h1 & c & r & cobj & Hbind & Hpre1 & Hc & Hqe & Hr).
  destruct (updaterBody_result key product h1 c r productObj cobj
              (delete key productsObj) qi qe
              (prefix_lookup _ _ _ _ Hpre1 Hproduct) Hqi Hc Hqe Hr)
    as (h2 & partialState & newProducts & item
        & Hbody & Hpre2 & Hpartial & _ & Hnew & Hfresh & Hitem).
  assert (h `prefix_of` h2) as Hpre by (by etrans).
  pose proof (prefix_lookup _ _ _ _ Hpre Hstate) as Hstate2.
  set (st' := ({[ "products" := JRef newProducts ]} : gmap string val) ∪ st).
  assert (getField st' "products" = JRef newProducts) as Hst'.
  { unfold getField, st'.
    by rewrite (lookup_union_Some_l _ _ _ (JRef newProducts))
      by apply lookup_singleton_eq. }
  exists (h2 ++ [st']), (length h2), item.
  assert (∀ l o, h2 !! l = Some o → (h2 ++ [st']) !! l = Some o) as Hkeep.
  { intros l o. apply lookup_app_l_Some. }
  split; [|split; [|split; [|split]]].
  - unfold addProduct, setState, addProductUpdater.
    rewrite Hbind. simpl. rewrite Hbody. simpl.
    rewrite Hstate2. simpl. by rewrite Hpartial.
  - etrans; [exact Hpre|]. by apply prefix_app_r.
  - unfold productsOf. rewrite list_lookup_middle by done. simpl.
    rewrite Hst'. by apply Hkeep.
  - by apply (prefix_lookup_None _ _ _ Hpre1).
  - by apply Hkeep.
Qed.

Lemma entryOf_other_key (h h' : heap) state state' key k l
    (productsObj : gmap string val) e :
  h `prefix_of` h' →
  productsOf h state = Some productsObj →
  productsOf h' state' = Some (<[key := JRef l]> (delete key productsObj)) →
  k ≠ key →
  entryOf h state k = Some e → entryOf h' state' k = Some e.
Proof.
  intros Hpre Hcoll Hcoll' Hk. unfold entryOf. rewrite Hcoll, Hcoll'. simpl.
  unfold getField.
  rewrite lookup_insert_ne, lookup_delete_ne by done.
  destruct (default JUndefined (productsObj !! k)); try done.
  by apply prefix_lookup.
Qed.

(** X10. An addition at one key leaves the rest of the cart alone: every
    line item found at another key before is found there afterwards, the
    same object and unchanged, and the keys of the collection afterwards are
    those of before and the key added. *)
Theorem addProduct_other_entries key product currency h state
    productsObj productObj qi qe :
  productsOf h state = Some productsObj →
  h !! product = Some productObj →
  getField productObj "quantity" = JNumber qi →
  (getField productsObj key = JUndefined ∧ qe = 0
   ∨ ∃ e, entryOf h state key = Some e
          ∧ getField e "quantity" = JNumber qe) →
  ∃ h' state' productsObj',
    addProduct key product currency h state = Some (h', state')
    ∧ productsOf h' state' = Some productsObj'
    ∧ dom productsObj' = {[ key ]} ∪ dom productsObj
    ∧ ∀ k, k ≠ key →
           productsObj' !! k = productsObj !! k
           ∧ ∀ e, entryOf h state k = Some e → entryOf h' state' k = Some e.
Proof.
  intros HproductsOf Hproduct Hqi Hentry.
  destruct (addProduct_result_fresh key product currency h state
              productsObj productObj qi qe HproductsOf Hproduct Hqi Hentry)
    as (h' & state' & item & Hrun & Hpre & Hcoll & _ & _).
  exists h', state', (<[key := JRef item]> (delete key productsObj)).
  split; [done|]. split; [done|]. split.
  - rewrite insert_delete_eq. by rewrite dom_insert_L.
  - intros k Hk. split.
    + by rewrite lookup_insert_ne, lookup_delete_ne.
    + intros e. by apply (entryOf_other_key h h' state state' key k item
                            productsObj).
Qed.

(** X11. The line item that an addition puts into the cart is a new object:
    its reference is none of the caller's store, in particular not that of
    the product passed in, whose fields it copies with the summed
    quantity. *)
Theorem addProduct_stores_copy key product currency h state
    productsObj productObj qi qe :
  productsOf h state = Some productsObj →
  h !! product = Some productObj →
  getField productObj "quantity" = JNumber qi →
  (getField productsObj key = JUndefined ∧ qe = 0
   ∨ ∃ e, entryOf h state key = Some e
          ∧ getField e "quantity" = JNumber qe) →
  ∃ h' state' productsObj' item,
    addProduct key product currency h state = Some (h', state')
    ∧ productsOf h' state' = Some productsObj'
    ∧ productsObj' !! key = Some (JRef item)
    ∧ h !! item = None
    ∧ item ≠ product
    ∧ h' !! item = Some (<["quantity" := JNumber (qi + qe)]> productObj)
    ∧ h' !! product = Some productObj.
Proof.
  intros HproductsOf Hproduct Hqi Hentry.
  destruct (addProduct_result_fresh key product currency h state
              productsObj productObj qi qe HproductsOf Hproduct Hqi Hentry)
    as (h' & state' & item & Hrun & Hpre & Hcoll & Hfresh & Hitem).
  exists h', state', (<[key := JRef item]> (delete key productsObj)), item.
  split; [done|]. split; [done|]. split; [by rewrite lookup_insert_eq|].
  split; [done|]. split; [|split; [done|]].
  - intros ->. by rewrite Hproduct in Hfresh.
  - by apply (prefix_lookup _ _ _ _ Hpre).
Qed.

Lemma addProduct_other_entries_witness :
  ∃ h' state' productsObj',
    addProduct "n/" 3 "GBP" exampleStoreAdded.1 exampleStoreAdded.2
    = Some (h', state')
    ∧ productsOf h' state' = Some productsObj'
    ∧ dom productsObj'
      = {[ "n/" ]} ∪ dom ({[ "m/" := JRef 6 ]} : gmap string val)
    ∧ ∀ k, k ≠ "n/" →
           productsObj' !! k = ({[ "m/" := JRef 6 ]} : gmap string val) !! k
           ∧ ∀ e, entryOf exampleStoreAdded.1 exampleStoreAdded.2 k = Some e →
                  entryOf h' state' k = Some e.
Proof.
  assert (productsOf exampleStoreAdded.1 exampleStoreAdded.2
          = Some {[ "m/" := JRef 6 ]}) as Hcoll
    by (vm_compute; reflexivity).
  assert (exampleStoreAdded.1 !! 3%nat = Some (exampleItem (num 3))) as Hitem
    by (vm_compute; reflexivity).
  assert (getField ({[ "m/" := JRef 6 ]} : gmap string val) "n/" = JUndefined)
    as Hundef by (vm_compute; reflexivity).
  exact (addProduct_other_entries "n/" 3 "GBP"
           exampleStoreAdded.1 exampleStoreAdded.2
           {[ "m/" := JRef 6 ]} (exampleItem (num 3)) (num 3) 0
           Hcoll Hitem eq_refl (or_introl (conj Hundef eq_refl))).
Defined.

Lemma addProduct_stores_copy_witness :
  ∃ h' state' productsObj' item,
    addProduct "m/" 2 "GBP" exampleStore 1 = Some (h', state')
    ∧ productsOf h' state' = Some productsObj'
    ∧ productsObj' !! "m/" = Some (JRef item)
    ∧ exampleStore !! item = None
    ∧ item ≠ 2%nat
    ∧ h' !! item
      = Some (<["quantity" := JNumber (num 2 + 0)]> (exampleItem (num 2)))
    ∧ h' !! 2%nat = Some (exampleItem (num 2)).
Proof.
  assert (productsOf exampleStore 1 = Some ∅) as Hcoll
    by (vm_compute; reflexivity).
  exact (addProduct_stores_copy "m/" 2 "GBP" exampleStore 1
           ∅ (exampleItem (num 2)) (num 2) 0
           Hcoll eq_refl eq_refl (or_introl (conj eq_refl eq_refl))).
Defined.

(** ** Several additions at one key *)

Lemma addProducts_acc key currency products qs :
  ∀ (h : heap) state (productsObj : gmap string val) acc,
    productsOf h state = Some productsObj →
    (getField productsObj key = JUndefined ∧ acc = 0
     ∨ ∃ e, entryOf h state key = Some e
            ∧ getField e "quantity" = JNumber acc) →
    Forall2 (λ l q, ∃ o : gmap string val,
               h !! l = Some o ∧ getField o "quantity" = JNumber q)
      products qs →
    ∃ h' state',
      addProducts key currency products h state = Some (h', state')
      ∧ h `prefix_of` h'
      ∧ (products = []
         ∨ ∃ item,
             entryOf h' state' key = Some item
             ∧ getField item "quantity"
               = JNumber (foldl (λ a q, q + a) acc qs)
             ∧ ∀ l o, last products = Some l → h !! l = Some o →
                      ∀ f, f ≠ "quantity" → item !! f = o !! f).
Proof.
  revert qs. induction products as [|p rest IH];
    intros qs h state productsObj acc Hcoll Hentry Hqs.
  - exists h, state. split; [done|]. split; [done|by left].
  - apply Forall2_cons_inv_l in Hqs
      as (q & qs' & (productObj & Hp & Hq) & Hrest & ->).
    destruct (addProduct_result key p currency h state productsObj productObj
                q acc Hcoll Hp Hq Hentry)
      as (h1 & state1 & item1 & Hrun1 & Hpre1 & Hcoll1 & Hentry1 & _).
    assert (getField (<["quantity" := JNumber (q + acc)]> productObj)
              "quantity" = JNumber (q + acc)) as Hq1.
    { unfold getField. by rewrite lookup_insert_eq. }
    destruct (IH qs' h1 state1 _ (q + acc) Hcoll1
                (or_intror (ex_intro _ _ (conj Hentry1 Hq1))))
      as (h' & state' & Hrun & Hpre & Hlast).
    { eapply Forall2_impl; [exact Hrest|].
      intros l q' (o & Hl & Hq'). exists o.
      split; [|done]. by apply (prefix_lookup _ _ _ _ Hpre1). }
    exists h', state'. split; [|split].
    + simpl. rewrite Hrun1. simpl. exact Hrun.
    + by etrans.
    + right. destruct Hlast as [->|(item & Hitem & Hquantity & Hfields)].
      * simpl in Hrun. injection Hrun as <- <-.
        apply Forall2_nil_inv_l in Hrest as ->.
        eexists. split; [exact Hentry1|]. split; [exact Hq1|].
        intros l o [= <-] Hl f Hf. rewrite Hp in Hl. injection Hl as <-.
        by rewrite lookup_insert_ne.
      * exists item. split; [done|]. split; [done|].
        intros l o Hl Ho. destruct rest as [|p' rest].
        -- simpl in Hrun. injection Hrun as <- <-.
           rewrite Hentry1 in Hitem. injection Hitem as <-.
           injection Hl as <-. rewrite Hp in Ho. injection Ho as <-.
           intros f Hf. by rewrite lookup_insert_ne.
        -- apply (Hfields l o); [done|].
           by apply (prefix_lookup _ _ _ _ Hpre1).
Qed.

(** X12. Adding one product after the other at the same key, into a cart
    that has no entry there or one of quantity [acc], yields one line item
    whose quantity is the quantities added up in the order of the calls,
    each new one plus what was there, and whose other fields are those of
    the product added last; the objects of the store before are all
    unchanged. *)
Theorem addProducts_sum key currency products qs
    (h : heap) state (productsObj : gmap string val) acc :
  productsOf h state = Some productsObj →
  (getField productsObj key = JUndefined ∧ acc = 0
   ∨ ∃ e, entryOf h state key = Some e
          ∧ getField e "quantity" = JNumber acc) →
  Forall2 (λ l q, ∃ o : gmap string val,
             h !! l = Some o ∧ getField o "quantity" = JNumber q)
    products qs →
  products ≠ [] →
  ∃ h' state' item,
    addProducts key currency products h state = Some (h', state')
    ∧ (∀ l o, h !! l = Some o → h' !! l = Some o)
    ∧ entryOf h' state' key = Some item
    ∧ getField item "quantity" = JNumber (foldl (λ a q, q + a) acc qs)
    ∧ ∀ l o, last products = Some l → h !! l = Some o →
             ∀ f, f ≠ "quantity" → item !! f = o !! f.
Proof.
  intros Hcoll Hentry Hqs Hne.
  destruct (addProducts_acc key currency products qs h state productsObj acc
              Hcoll Hentry Hqs)
    as (h' & state' & Hrun & Hpre & [->|(item & Hitem & Hq & Hfields)]);
    [done|].
  exists h', state', item. split; [done|]. split; [|done].
  intros l o. by apply prefix_lookup.
Qed.

Lemma addProducts_sum_witness :
  ∃ h' state' item,
    addProducts "m/" "GBP" [2%nat; 3%nat] exampleStore 1 = Some (h', state')
    ∧ (∀ l o, exampleStore !! l = Some o → h' !! l = Some o)
    ∧ entryOf h' state' "m/" = Some item
    ∧ getField item "quantity" = JNumber (num 3 + (num 2 + 0))
    ∧ ∀ l o, last [2%nat; 3%nat] = Some l → exampleStore !! l = Some o →
             ∀ f, f ≠ "quantity" → item !! f = o !! f.
Proof.
  assert (productsOf exampleStore 1 = Some ∅) as Hcoll
    by (vm_compute; reflexivity).
  apply (addProducts_sum "m/" "GBP" [2%nat; 3%nat] [num 2; num 3]
           exampleStore 1 ∅ 0 Hcoll (or_introl (conj eq_refl eq_refl))).
  - constructor; [by exists (exampleItem (num 2))|].
    constructor; [by exists (exampleItem (num 3))|].
    constructor.
  - discriminate.
Defined.

(** ** When the localization returns *)

Section LocalizationRuns.

Context {node : Type} (getLocalization : string → Resolver node).

Lemma readScope_plain_fuel fuel fuel' scope k :
  isLazyParam k = false →
  readScope node getLocalization fuel scope k
  = readScope node getLocalization fuel' scope k.
Proof.
  unfold isLazyParam. rewrite bool_decide_eq_false. intros Hk.
  destruct fuel, fuel'; simpl; repeat case_decide; subst; try done;
    naive_solver.
Qed.

Lemma resolve_plain_fuel fuel fuel' scope r :
  neverReadsLazy r →
  resolve node (readScope node getLocalization fuel scope) r
  = resolve node (readScope node getLocalization fuel' scope) r.
Proof.
  induction r as [x|k cont IH]; simpl; [done|].
  intros [Hk Hcont].
  rewrite (readScope_plain_fuel fuel fuel' scope k Hk).
  destruct (readScope node getLocalization fuel' scope k) as [log [v|]];
    [|done].
  by rewrite (IH v (Hcont v)).
Qed.

Lemma resolve_ext (rd rd' : string → Run (ParamValue node)) r :
  (∀ k, rd k = rd' k) → resolve node rd r = resolve node rd' r.
Proof.
  intros Hrd. induction r as [x|k cont IH]; simpl; [done|].
  rewrite Hrd. destruct (rd' k) as [log [v|]]; [|done]. by rewrite IH.
Qed.

Lemma resolve_total (rd : string → Run (ParamValue node)) r :
  (∀ k, ∃ log v, rd k = (log, Some v)) →
  ∃ log x, resolve node rd r = (log, Some x).
Proof.
  intros Hrd. induction r as [x|k cont IH]; simpl; [by eauto|].
  destruct (Hrd k) as (log & v & ->).
  destruct (IH v) as (log' & x & ->). eauto.
Qed.

(** With plain texts for the name and the currency, a read of the scope
    with some fuel left returns, and does not depend on how much is left. *)
Lemma readScope_depth_one fuel scope k :
  neverReadsLazy (getLocalization (ls_name scope)) →
  neverReadsLazy (getLocalization (ls_currency scope)) →
  readScope node getLocalization (S fuel) scope k
  = readScope node getLocalization 1 scope k
  ∧ ∃ log v, readScope node getLocalization 1 scope k = (log, Some v).
Proof.
  intros Hname Hcurrency. destruct (isLazyParam k) eqn:Hlazy.
  - rewrite !readScope_lazy_S by done.
    unfold callGetLocalization, callWith.
    assert (neverReadsLazy
              (getLocalization
                 (if decide (k = "localizedCurrency")
                  then ls_currency scope else ls_name scope))) as Hplain
      by (by case_decide).
    rewrite (resolve_plain_fuel fuel 0 scope _ Hplain).
    split; [done|].
    destruct (resolve_plain getLocalization 0 scope _ Hplain)
      as (log & x & -> & _).
    simpl. eauto.
  - split; [by apply readScope_plain_fuel|].
    destruct (readScope_plain getLocalization 1 scope k Hlazy) as [v ->].
    eauto.
Qed.

End LocalizationRuns.

(** X13. When the texts of the product's name and of its currency read
    neither [localizedName] nor [localizedCurrency], every call
    [getLocalization(id, localizationScope)] of [render] returns, whatever
    else the text of [id] reads: the accessor properties nest one call
    deep, and more fuel changes nothing. *)
Theorem getLocalization_returns {node}
    (getLocalization : string → Resolver node)
    (props : ProductProps) (st : State) (id : string) (fuel : nat) :
  neverReadsLazy (getLocalization (p_name props)) →
  neverReadsLazy (getLocalization (p_currency props)) →
  let scope := localizationScope props st in
  callGetLocalization node getLocalization (S fuel) scope id
  = callGetLocalization node getLocalization 1 scope id
  ∧ ∃ log x,
      callGetLocalization node getLocalization 1 scope id = (log, Some x)
      ∧ calls log = S (lazyReads log).
Proof.
  intros Hname Hcurrency scope.
  pose proof (λ fuel k, readScope_depth_one getLocalization fuel scope k
                          Hname Hcurrency) as Hread.
  unfold callGetLocalization, callWith.
  rewrite (resolve_ext (readScope node getLocalization (S fuel) scope)
             (readScope node getLocalization 1 scope))
    by (intros k; apply Hread).
  split; [done|].
  destruct (resolve_total (readScope node getLocalization 1 scope)
              (getLocalization id)) as (log & x & Hrun).
  { intros k. apply (Hread 0%nat k). }
  rewrite Hrun. exists (ECall id :: log), x. split; [done|].
  pose proof (resolve_balance _ _ (readScope_balance getLocalization 1 scope)
                _ _ Hrun) as Hbal.
  unfold calls, lazyReads in *. simpl. by rewrite Hbal.
Qed.

Lemma getLocalization_returns_witness :
  callGetLocalization string exampleLocalization 5
    (localizationScope caseProps initialState) "price"
  = callGetLocalization string exampleLocalization 1
      (localizationScope caseProps initialState) "price"
  ∧ ∃ log x,
      callGetLocalization string exampleLocalization 1
        (localizationScope caseProps initialState) "price"
      = (log, Some x)
      ∧ calls log = S (lazyReads log).
Proof.
  apply (getLocalization_returns exampleLocalization caseProps initialState
           "price" 4); exact I.
Defined.

(** X14. When the text of the product's name reads [localizedName] first,
    the accessor calls [getLocalization] for that text again and again: a
    read of [localizedName], and every call whose text reads it first,
    does not return, however deep the calls may nest; the same holds of the
    currency and [localizedCurrency]. *)
Theorem getLocalization_self_reference {node}
    (getLocalization : string → Resolver node)
    (props : ProductProps) (st : State) (k : string)
    (cont : ParamValue node → Resolver node) :
  isLazyParam k = true →
  getLocalization
    (if decide (k = "localizedCurrency") then p_currency props
     else p_name props)
  = Read k cont →
  let scope := localizationScope props st in
  ∀ fuel,
    (readScope node getLocalization fuel scope k).2 = None
    ∧ ∀ id cont',
        getLocalization id = Read k cont' →
        (callGetLocalization node getLocalization fuel scope id).2 = None.
Proof.
  intros Hlazy Hself scope.
  assert (∀ fuel, (readScope node getLocalization fuel scope k).2 = None)
    as Hread.
  { induction fuel as [|fuel IH].
    - by rewrite readScope_lazy_O.
    - rewrite readScope_lazy_S by done.
      unfold callGetLocalization, callWith.
      change (ls_currency scope) with (p_currency props).
      change (ls_name scope) with (p_name props).
      rewrite Hself. simpl.
      destruct (readScope node getLocalization fuel scope k)
        as [log [v|]]; [done|]. done. }
  intros fuel. split; [done|].
  intros id cont' Hid. unfold callGetLocalization, callWith.
  rewrite Hid. simpl. specialize (Hread fuel).
  destruct (readScope node getLocalization fuel scope k) as [log [v|]];
    [done|]. done.
Qed.

Lemma getLocalization_self_reference_witness :
  (callGetLocalization string selfReferringLocalization 9
     (localizationScope caseProps initialState) "case").2 = None.
Proof.
  apply (proj2 (getLocalization_self_reference selfReferringLocalization
                  caseProps initialState "localizedName"
                  (λ v, Return (paramText v)) eq_refl eq_refl 9%nat)
           "case" (λ v, Return (paramText v)) eq_refl).
Defined.

(** ** Line items without additional cost *)

Lemma calculateAdditionalCost_no_cost properties sel currency :
  (∀ g opts o,
     (g, opts) ∈ properties →
     selectedOptionOf opts sel g = Some (Shape o) →
     additionalCost o = None) →
  calculateAdditionalCost properties sel currency = 0.
Proof.
  induction properties as [|[g opts] rest IH]; intros Hnone; [done|].
  rewrite calculateAdditionalCost_cons, IH.
  - unfold optionCost.
    destruct (selectedOptionOf opts sel g) as [[v|o]|] eqn:Hsel; try ring.
    rewrite (Hnone g opts o); [ring|apply list_elem_of_here|done].
  - intros g' opts' o Hin. apply (Hnone g' opts' o).
    by apply list_elem_of_further.
Qed.

(** X15. When no selected option carries an [additionalCost] (each is a
    bare value or a record without one; a product without properties, the
    default, is such), the price shown is the base price and the line item
    gets the table of base prices as it is. *)
Theorem generateCartProduct_base_prices
    (props : ProductProps) (st : State) :
  (∀ g opts o,
     (g, opts) ∈ p_properties props →
     selectedOptionOf opts (selectedPropertyIndexes st) g = Some (Shape o) →
     additionalCost o = None) →
  renderPrice props st = p_prices props !! p_currency props
  ∧ pi_prices (cp_productInfo
                 (generateCartProduct props (quantity st)
                    (selectedPropertyIndexes st)))
    = p_prices props.
Proof.
  intros Hnone. split.
  - unfold renderPrice.
    rewrite (calculateAdditionalCost_no_cost _ _ _ Hnone).
    destruct (p_prices props !! p_currency props) as [base|]; [|done].
    simpl. f_equal. ring.
  - apply map_eq. intros currency.
    rewrite generateCartProduct_price.
    rewrite (calculateAdditionalCost_no_cost _ _ _ Hnone).
    destruct (p_prices props !! currency) as [base|]; [|done].
    simpl. f_equal. ring.
Qed.

Lemma generateCartProduct_base_prices_witness :
  renderPrice caseProps initialState
  = p_prices caseProps !! p_currency caseProps
  ∧ pi_prices (cp_productInfo
                 (generateCartProduct caseProps (quantity initialState)
                    (selectedPropertyIndexes initialState)))
    = p_prices caseProps.
Proof.
  apply (generateCartProduct_base_prices caseProps initialState).
  intros g opts o Hin Hsel.
  apply list_elem_of_singleton in Hin. injection Hin as -> ->.
  discriminate Hsel.
Defined.

(** ** Which submissions share a key *)

Lemma fmap_eq_pointwise {A B} (f g : A → B) (l : list A) :
  f <$> l = g <$> l → ∀ x, x ∈ l → f x = g x.
Proof.
  induction l as [|y l IH]; intros Heq x Hx; [by apply elem_of_nil in Hx|].
  rewrite !fmap_cons in Heq. injection Heq as Hy Heq.
  apply elem_of_cons in Hx as [->|Hx]; [done|by apply IH].
Qed.

Lemma generateCartProduct_properties props q sel :
  wf (p_properties props) →
  cp_properties (generateCartProduct props q sel)
  = (λ e, (e.1, getOptionValue (selectedOptionOf e.2 sel e.1)))
    <$> p_properties props.
Proof.
  intros Hwf. unfold generateCartProduct, entries. simpl.
  by rewrite (reduce_set_map
                (λ propName options,
                   getOptionValue (selectedOptionOf options sel propName)))
    by done.
Qed.

(** X16. With the key function of the example, two submissions of one
    product get the same key only when, group by group, the selected values
    print the same, provided the printed values of the product's options
    contain no underscore and both selections are in range: what the
    example merges into one line item are selections of the same values. *)
Theorem submissions_share_key
    (NumberToString : Qc → string) (props : ProductProps)
    (q q' : Qc) (sel sel' : gmap string Z) :
  wf (p_properties props) →
  (∀ g opts o,
     (g, opts) ∈ p_properties props → o ∈ opts →
     charFree "_" (valueToString NumberToString (getOptionValue (Some o)))
     = true) →
  (∀ g opts, (g, opts) ∈ p_properties props →
             inRange opts sel g ∧ inRange opts sel' g) →
  generateProductKey NumberToString (p_id props)
    (cp_properties (generateCartProduct props q sel))
  = generateProductKey NumberToString (p_id props)
      (cp_properties (generateCartProduct props q' sel')) →
  ∀ g opts,
    (g, opts) ∈ p_properties props →
    valueToString NumberToString (getOptionValue (selectedOptionOf opts sel g))
    = valueToString NumberToString
        (getOptionValue (selectedOptionOf opts sel' g)).
Proof.
  intros Hwf Hfree Hrange Hkey.
  rewrite !generateCartProduct_properties in Hkey by done.
  unfold generateProductKey, entries in Hkey.
  apply (inj (String.app (p_id props))) in Hkey.
  apply (inj (String.app "/")) in Hkey.
  assert (∀ s : gmap string Z,
            (∀ g opts, (g, opts) ∈ p_properties props → inRange opts s g) →
            Forall (λ e, charFree "_" (valueToString NumberToString e.2) = true)
              ((λ e, (e.1, getOptionValue (selectedOptionOf e.2 s e.1)))
               <$> p_properties props)) as Hall.
  { intros s Hs. apply Forall_fmap, Forall_forall. intros [g opts] Hin.
    simpl. destruct (selectedOptionOf_in_range _ _ _ (Hs g opts Hin))
      as [o Ho].
    rewrite Ho. apply (Hfree g opts o Hin).
    by apply (array_get_elem_of _ _ _ Ho). }
  apply (join_values_inj NumberToString) in Hkey.
  - rewrite <- !list_fmap_compose in Hkey.
    intros g opts Hin.
    by apply (fmap_eq_pointwise _ _ _ Hkey (g, opts)).
  - unfold keys. by rewrite <- !list_fmap_compose.
  - apply Hall. intros g opts Hin. by apply Hrange.
  - apply Hall. intros g opts Hin. by apply Hrange.
Qed.

Lemma submissions_share_key_witness :
  valueToString integerToString
    (getOptionValue
       (selectedOptionOf [red; yellow] {[ "colour" := 1%Z ]} "colour"))
  = valueToString integerToString
      (getOptionValue
         (selectedOptionOf [red; yellow] {[ "colour" := 4294967297%Z ]}
            "colour")).
Proof.
  apply (submissions_share_key integerToString caseProps 1 (num 2)
           {[ "colour" := 1%Z ]} {[ "colour" := 4294967297%Z ]}).
  - unfold wf. simpl. apply NoDup_singleton.
  - intros g opts o Hin Ho.
    apply list_elem_of_singleton in Hin. injection Hin as -> ->.
    apply elem_of_cons in Ho as [->|Ho]; [reflexivity|].
    apply list_elem_of_singleton in Ho. subst o. reflexivity.
  - intros g opts Hin.
    apply list_elem_of_singleton in Hin. injection Hin as -> ->.
    unfold inRange. vm_compute. by repeat split.
  - by vm_compute.
  - apply list_elem_of_here.
Defined.
